(** * UnnamedVulkanEngine: the geometry builder, the model and the renderer

    A shallow embedding of [model.cpp], [model.hpp] and [renderer.cpp].

    - C++ [int] and [uint32_t] values are integers in [Z]; the narrowing
      [static_cast<uint32_t>] is written out as a remainder modulo [2^32],
      and signed arithmetic that leaves the [int] range is undefined.
      [size_t] has 64 bits.
    - [float] values are the IEEE-754 data of [SpecFloat]; [operator==] on
      them is [SFeqb], for which a NaN differs from itself and the two zeros
      are equal.
    - [std::vector] is [list]; an unchecked [operator[]] out of range is
      undefined behaviour.
    - [std::unordered_map<Vertex, uint32_t>] is an association list searched
      with [Vertex::operator==]; the hash of [utils.hpp] and glm is taken to
      give equal vertices equal hashes, as [std::hash<float>] does for the
      two zeros.
    - [assert] is active (the build does not define [NDEBUG]).
    - Flowing off the end of a function whose result type is not [void] is
      undefined behaviour.
    - Calls into Vulkan, GLFW, the window, the device and the swapchain are
      events of a log; what they answer is supplied by an oracle. *)

From Stdlib Require Import ZArith Lia SpecFloat.
From stdpp Require Import base list strings.

Local Open Scope Z_scope.

(** ** Outcomes of a call *)

(** How a C++ call ends: it returns, it throws [std::runtime_error], an
    [assert] fails, its behaviour is undefined, or it is still blocked
    waiting for the window system. *)
Inductive outcome (A : Type) : Type :=
  | Return (a : A)
  | Throw (what : string)
  | Abort (assertion : string)
  | Undefined
  | Blocked.

Arguments Return {A} a.
Arguments Throw {A} what.
Arguments Abort {A} assertion.
Arguments Undefined {A}.
Arguments Blocked {A}.

#[global] Instance outcome_ret : MRet outcome := @Return.

#[global] Instance outcome_bind : MBind outcome := λ A B f m,
  match m with
  | Return a => f a
  | Throw s => Throw s
  | Abort s => Abort s
  | Undefined => Undefined
  | Blocked => Blocked
  end.

(** ** Machine integers *)

Definition INT_MIN : Z := - 2 ^ 31.
Definition INT_MAX : Z := 2 ^ 31 - 1.

(** The value of an [int] expression: overflow is undefined. *)
Definition int_expr (z : Z) : outcome Z :=
  if (INT_MIN <=? z) && (z <=? INT_MAX) then Return z else Undefined.

(** [a * i + k] evaluated in [int]. *)
Definition int_mul_add (a i k : Z) : outcome Z :=
  m ← int_expr (a * i); int_expr (m + k).

(** [static_cast<uint32_t>(z)]. *)
Definition uint32 (z : Z) : Z := z mod 2 ^ 32.

(** Conversion of an [int] to [size_t] (64 bits), as done by the usual
    arithmetic conversions when an [int] is compared with a [size_t]. *)
Definition to_size_t (z : Z) : Z := z mod 2 ^ 64.

(** [v.size()]. *)
Definition size {A} (v : list A) : Z := Z.of_nat (length v).

(** [v[i]] for an [int] index [i]: a negative [i] converts to a [size_t]
    beyond any vector, so every index outside [0 .. size-1] is undefined. *)
Definition vec_at {A} (v : list A) (i : Z) : outcome A :=
  if i <? 0 then Undefined
  else match v !! Z.to_nat i with
       | Some x => Return x
       | None => Undefined
       end.

(** ** Floats and glm vectors *)

Definition float : Type := spec_float.

(** [a == b] on [float]. *)
Definition float_eqb (a b : float) : bool := SFeqb a b.

(** [0.f], the value of a value-initialised float, and [1.f] in binary32. *)
Definition f0 : float := S754_zero false.
Definition f1 : float := S754_finite false 8388608 (-23).

Record vec3 := Vec3 { x3 : float; y3 : float; z3 : float }.
Record vec2 := Vec2 { x2 : float; y2 : float }.

(** glm's [operator==] compares component by component. *)
Definition vec3_eqb (a b : vec3) : bool :=
  float_eqb (x3 a) (x3 b) && float_eqb (y3 a) (y3 b) && float_eqb (z3 a) (z3 b).

Definition vec2_eqb (a b : vec2) : bool :=
  float_eqb (x2 a) (x2 b) && float_eqb (y2 a) (y2 b).

(** ** The parser's output (tiny_obj_loader.h) *)

Module tinyobj.

Record attrib_t := {
  vertices : list float;
  normals : list float;
  texcoords : list float;
  colors : list float
}.

Record index_t := {
  vertex_index : Z;
  normal_index : Z;
  texcoord_index : Z
}.

Record mesh_t := { indices : list index_t }.

Record shape_t := { mesh : mesh_t }.

(** What [tinyobj::LoadObj] leaves behind: its boolean result and its
    output parameters. *)
Record LoadObj_result := {
  ok : bool;
  attrib : attrib_t;
  shapes : list shape_t;
  warn : string;
  err : string
}.

End tinyobj.

(** ** model.hpp / model.cpp *)

Module model.

Record Vertex := {
  position : vec3;
  color : vec3;
  normal : vec3;
  uv : vec2
}.

(** [Vertex vertexInstance = {}]. *)
Definition Vertex_default : Vertex :=
  {| position := Vec3 f0 f0 f0; color := Vec3 f0 f0 f0;
     normal := Vec3 f0 f0 f0; uv := Vec2 f0 f0 |}.

(** [Vertex::operator==]. *)
Definition Vertex_eqb (a b : Vertex) : bool :=
  vec3_eqb (position a) (position b) && vec3_eqb (color a) (color b)
  && vec3_eqb (normal a) (normal b) && vec2_eqb (uv a) (uv b).

Record Builder := {
  vertices : list Vertex;
  indices : list Z
}.

(** *** std::unordered_map<Vertex, uint32_t>

    The table is a list of key/value nodes. A key is found when a node's
    key compares equal with [Vertex_eqb]; hashing only selects where to
    look and is taken to agree with [operator==]. *)
Definition umap : Type := list (Vertex * Z).

Definition umap_find (m : umap) (v : Vertex) : option Z :=
  snd <$> find (λ kv, Vertex_eqb (fst kv) v) m.

(** [m.count(v)]. *)
Definition umap_count (m : umap) (v : Vertex) : Z :=
  match umap_find m v with Some _ => 1 | None => 0 end.

(** [m[v]] read: a missing key is inserted with a value-initialised
    mapped value. *)
Definition umap_subscript (m : umap) (v : Vertex) : umap * Z :=
  match umap_find m v with
  | Some i => (m, i)
  | None => ((v, 0) :: m, 0)
  end.

Fixpoint umap_update (m : umap) (v : Vertex) (n : Z) : umap :=
  match m with
  | [] => []
  | (k, i) :: m' =>
      if Vertex_eqb k v then (k, n) :: m' else (k, i) :: umap_update m' v n
  end.

(** [m[v] = n]. *)
Definition umap_assign (m : umap) (v : Vertex) (n : Z) : umap :=
  match umap_find m v with
  | Some _ => umap_update m v n
  | None => (v, n) :: m
  end.

(** *** Builder::loadModel *)

(** Lines 156-174: position and colour. *)
Definition set_position_color (attrib : tinyobj.attrib_t) (index : tinyobj.index_t)
    (vertexInstance : Vertex) : outcome Vertex :=
  if 0 <=? tinyobj.vertex_index index then
    px ← int_mul_add 3 (tinyobj.vertex_index index) 0 ≫= vec_at (tinyobj.vertices attrib);
    py ← int_mul_add 3 (tinyobj.vertex_index index) 1 ≫= vec_at (tinyobj.vertices attrib);
    pz ← int_mul_add 3 (tinyobj.vertex_index index) 2 ≫= vec_at (tinyobj.vertices attrib);
    colorIndex ← int_mul_add 3 (tinyobj.vertex_index index) 2;
    c ← (if to_size_t colorIndex <? size (tinyobj.colors attrib) then
           cr ← vec_at (tinyobj.colors attrib) (colorIndex - 2);
           cg ← vec_at (tinyobj.colors attrib) (colorIndex - 1);
           cb ← vec_at (tinyobj.colors attrib) (colorIndex - 0);
           Return (Vec3 cr cg cb)
         else Return (Vec3 f1 f1 f1));
    Return {| position := Vec3 px py pz; color := c;
              normal := normal vertexInstance; uv := uv vertexInstance |}
  else Return vertexInstance.

(** Lines 176-182: the normal. *)
Definition set_normal (attrib : tinyobj.attrib_t) (index : tinyobj.index_t)
    (vertexInstance : Vertex) : outcome Vertex :=
  if 0 <=? tinyobj.normal_index index then
    nx ← int_mul_add 3 (tinyobj.normal_index index) 0 ≫= vec_at (tinyobj.vertices attrib);
    ny ← int_mul_add 3 (tinyobj.normal_index index) 1 ≫= vec_at (tinyobj.vertices attrib);
    nz ← int_mul_add 3 (tinyobj.normal_index index) 2 ≫= vec_at (tinyobj.vertices attrib);
    Return {| position := position vertexInstance; color := color vertexInstance;
              normal := Vec3 nx ny nz; uv := uv vertexInstance |}
  else Return vertexInstance.

(** Lines 184-189: the texture coordinates. *)
Definition set_uv (attrib : tinyobj.attrib_t) (index : tinyobj.index_t)
    (vertexInstance : Vertex) : outcome Vertex :=
  if 0 <=? tinyobj.texcoord_index index then
    u ← int_mul_add 2 (tinyobj.texcoord_index index) 0 ≫= vec_at (tinyobj.texcoords attrib);
    v ← int_mul_add 2 (tinyobj.texcoord_index index) 1 ≫= vec_at (tinyobj.texcoords attrib);
    Return {| position := position vertexInstance; color := color vertexInstance;
              normal := normal vertexInstance; uv := Vec2 u v |}
  else Return vertexInstance.

(** Lines 154-189: the vertex built for one index triple. *)
Definition loadVertex (attrib : tinyobj.attrib_t) (index : tinyobj.index_t)
  : outcome Vertex :=
  vertexInstance ← set_position_color attrib index Vertex_default;
  vertexInstance ← set_normal attrib index vertexInstance;
  set_uv attrib index vertexInstance.

(** Lines 191-195: deduplicate and emit the index. *)
Definition emitVertex (st : umap * Builder) (vertexInstance : Vertex)
  : umap * Builder :=
  let '(uniqueVertices, b) := st in
  let '(uniqueVertices, b) :=
    if umap_count uniqueVertices vertexInstance =? 0 then
      (umap_assign uniqueVertices vertexInstance (uint32 (size (vertices b))),
       {| vertices := vertices b ++ [vertexInstance]; indices := indices b |})
    else (uniqueVertices, b) in
  let '(uniqueVertices, i) := umap_subscript uniqueVertices vertexInstance in
  (uniqueVertices, {| vertices := vertices b; indices := indices b ++ [i] |}).

(** The inner loop, over [shape.mesh.indices]. *)
Fixpoint loadIndices (attrib : tinyobj.attrib_t) (l : list tinyobj.index_t)
    (st : umap * Builder) : outcome (umap * Builder) :=
  match l with
  | [] => Return st
  | index :: l' =>
      vertexInstance ← loadVertex attrib index;
      loadIndices attrib l' (emitVertex st vertexInstance)
  end.

(** The outer loop, over [shapes]. *)
Fixpoint loadShapes (attrib : tinyobj.attrib_t) (l : list tinyobj.shape_t)
    (st : umap * Builder) : outcome (umap * Builder) :=
  match l with
  | [] => Return st
  | shape :: l' =>
      st' ← loadIndices attrib (tinyobj.indices (tinyobj.mesh shape)) st;
      loadShapes attrib l' st'
  end.

Section Loader.

(** The parser together with the file system it reads. *)
Variable LoadObj : string → tinyobj.LoadObj_result.

(** [Builder::loadModel]: the builder after the call and how the call
    ended. After undefined behaviour the builder shown is the cleared
    one; nothing is known about it. *)
Definition loadModel (filepath : string) (b : Builder) : Builder * outcome () :=
  let r := LoadObj filepath in
  if negb (tinyobj.ok r) then (b, Throw (tinyobj.warn r +:+ tinyobj.err r))
  else
    let b0 := {| vertices := []; indices := [] |} in
    let uniqueVertices : umap := [] in
    match loadShapes (tinyobj.attrib r) (tinyobj.shapes r) (uniqueVertices, b0) with
    | Return (_, b') => (b', Return ())
    | Throw s => (b0, Throw s)
    | Abort s => (b0, Abort s)
    | Undefined => (b0, Undefined)
    | Blocked => (b0, Blocked)
    end.

End Loader.

(** *** The device-side part of a model *)

Inductive VkBufferUsage := TRANSFER_SRC | TRANSFER_DST | VERTEX_BUFFER | INDEX_BUFFER.
Inductive VkMemoryProperty := HOST_VISIBLE | HOST_COHERENT | DEVICE_LOCAL.
Inductive buffer_name := stagingBuffer | vertexBuffer | indexBuffer.

(** Calls made to the device and to Vulkan while uploading. *)
Inductive device_call :=
  | createBuffer (bufferSize : Z) (usage : list VkBufferUsage)
      (properties : list VkMemoryProperty) (buffer : buffer_name)
  | vkMapMemory (buffer : buffer_name) (bufferSize : Z)
  | memcpy (bufferSize : Z)
  | vkUnmapMemory (buffer : buffer_name)
  | copyBuffer (src dst : buffer_name) (bufferSize : Z)
  | vkDestroyBuffer (buffer : buffer_name)
  | vkFreeMemory (buffer : buffer_name).

(** Commands recorded into a command buffer by [bind] and [draw]. *)
Inductive command :=
  | vkCmdBindVertexBuffers (firstBinding bindingCount : Z)
      (buffers : list buffer_name) (offsets : list Z)
  | vkCmdBindIndexBuffer (buffer : buffer_name) (offset : Z)
  | vkCmdDrawIndexed (indexCount instanceCount firstIndex vertexOffset firstInstance : Z)
  | vkCmdDraw (vertexCount instanceCount firstVertex firstInstance : Z).

(** The members of [class model] the upload and draw paths use, with the
    device calls made so far. *)
Record model_t := {
  vertexCount : Z;
  hasIndexBuffer : bool;
  indexCount : Z;
  device_log : list device_call
}.

(** [sizeof(Vertex)]: eleven packed floats. [sizeof(uint32_t)]. *)
Definition sizeof_Vertex : Z := 44.
Definition sizeof_uint32 : Z := 4.

Definition upload (bufferSize : Z) (usage : VkBufferUsage) (dst : buffer_name)
  : list device_call :=
  [ createBuffer bufferSize [TRANSFER_SRC] [HOST_VISIBLE; HOST_COHERENT] stagingBuffer;
    vkMapMemory stagingBuffer bufferSize;
    memcpy bufferSize;
    vkUnmapMemory stagingBuffer;
    createBuffer bufferSize [usage; TRANSFER_DST] [DEVICE_LOCAL] dst;
    copyBuffer stagingBuffer dst bufferSize;
    vkDestroyBuffer stagingBuffer;
    vkFreeMemory stagingBuffer ].

(** [model::createVertexBuffers]. *)
Definition createVertexBuffers (vs : list Vertex) (m : model_t)
  : model_t * outcome () :=
  let vertexCount := uint32 (size vs) in
  let m := {| vertexCount := vertexCount; hasIndexBuffer := hasIndexBuffer m;
              indexCount := indexCount m; device_log := device_log m |} in
  if negb (3 <=? vertexCount) then (m, Abort "Vertex count must be at least 3")
  else
    let bufferSize := sizeof_Vertex * vertexCount in
    ({| vertexCount := vertexCount; hasIndexBuffer := hasIndexBuffer m;
        indexCount := indexCount m;
        device_log := device_log m ++ upload bufferSize VERTEX_BUFFER vertexBuffer |},
     Return ()).

(** [model::createIndexBuffer]. *)
Definition createIndexBuffer (ixs : list Z) (m : model_t) : model_t * outcome () :=
  let indexCount := uint32 (size ixs) in
  let hasIndexBuffer := 0 <? indexCount in
  let m := {| vertexCount := vertexCount m; hasIndexBuffer := hasIndexBuffer;
              indexCount := indexCount; device_log := device_log m |} in
  if negb hasIndexBuffer then (m, Return ())
  else
    let bufferSize := sizeof_uint32 * indexCount in
    ({| vertexCount := vertexCount m; hasIndexBuffer := hasIndexBuffer;
        indexCount := indexCount;
        device_log := device_log m ++ upload bufferSize INDEX_BUFFER indexBuffer |},
     Return ()).

(** The constructor [model::model]: the object exists only when both
    steps return. [m0] stands for the storage before construction. *)
Definition construct (m0 : model_t) (builderInstance : Builder) : outcome model_t :=
  let m := {| vertexCount := vertexCount m0; hasIndexBuffer := false;
              indexCount := indexCount m0; device_log := device_log m0 |} in
  let '(m, r) := createVertexBuffers (vertices builderInstance) m in
  _ ← r;
  let '(m, r) := createIndexBuffer (indices builderInstance) m in
  _ ← r;
  Return m.

(** [model::bind]. *)
Definition bind (m : model_t) (commandBuffer : list command) : list command :=
  let commandBuffer :=
    commandBuffer ++ [vkCmdBindVertexBuffers 0 1 [vertexBuffer] [0]] in
  if hasIndexBuffer m then commandBuffer ++ [vkCmdBindIndexBuffer indexBuffer 0]
  else commandBuffer.

(** [model::draw]. *)
Definition draw (m : model_t) (commandBuffer : list command) : list command :=
  if hasIndexBuffer m then commandBuffer ++ [vkCmdDrawIndexed (indexCount m) 1 0 0 0]
  else commandBuffer ++ [vkCmdDraw (vertexCount m) 1 0 0].

(** [model::~model]. *)
Definition destroy (m : model_t) : list device_call :=
  [vkDestroyBuffer vertexBuffer; vkFreeMemory vertexBuffer]
  ++ (if hasIndexBuffer m
      then [vkDestroyBuffer indexBuffer; vkFreeMemory indexBuffer] else []).

Section FromFile.

Variable LoadObj : string → tinyobj.LoadObj_result.

(** [model::createModelFromFile]; [m0] stands for the storage of the new
    model. *)
Definition createModelFromFile (m0 : model_t) (filepath : string) : outcome model_t :=
  let builderInstance := {| vertices := []; indices := [] |} in
  let '(builderInstance, r) := loadModel LoadObj filepath builderInstance in
  _ ← r;
  construct m0 builderInstance.

End FromFile.

End model.

(** ** Conversions between integers and [float] *)

(** [static_cast<float>(z)]: the nearest binary32 value, ties to even. *)
Definition float_of_Z (z : Z) : float := binary_normalize 24 128 z 0 false.

(** Conversion of a [float] to [uint32_t]: the fractional part is dropped;
    a value whose integer part does not fit is undefined. *)
Definition uint32_of_float (f : float) : outcome Z :=
  match f with
  | S754_zero _ => Return 0
  | S754_finite s m e =>
      let a := match e with
               | Z0 => Zpos m
               | Zpos p => Zpos m * 2 ^ Zpos p
               | Zneg p => Zpos m / 2 ^ Zpos p
               end in
      let t := if s then - a else a in
      if (0 <=? t) && (t <? 2 ^ 32) then Return t else Undefined
  | _ => Undefined
  end.

(** [0.01f] and [0.1f] in binary32. *)
Definition f0_01 : float := S754_finite false 10737418 (-30).
Definition f0_1 : float := S754_finite false 13421773 (-27).

(** ** renderer.cpp *)

Module renderer.

(** [VkResult] is a C enumeration; the three codes the renderer tests. *)
Definition VkResult : Type := Z.
Definition VK_SUCCESS : VkResult := 0.
Definition VK_SUBOPTIMAL_KHR : VkResult := 1000001003.
Definition VK_ERROR_OUT_OF_DATE_KHR : VkResult := -1000001004.

Record VkExtent2D := { width : Z; height : Z }.

(** A command buffer handle; [nullptr] is the null handle. *)
Definition VkCommandBuffer : Type := Z.
Definition nullptr : VkCommandBuffer := 0.

(** A swapchain object, known by the extent it was constructed for. *)
Record swapchain := { windowExtent : VkExtent2D }.

(** Calls the renderer makes to its collaborators, with their answers. *)
Inductive event :=
  | getExtent (extent : VkExtent2D)
  | glfwWaitEvents
  | vkDeviceWaitIdle
  | make_swapchain (extent : VkExtent2D) (previous : option swapchain)
  | compareSwapFormats (same : bool)
  | acquireNextImage (result : VkResult)
  | vkBeginCommandBuffer (commandBuffer : VkCommandBuffer) (result : VkResult)
  | vkEndCommandBuffer (commandBuffer : VkCommandBuffer) (result : VkResult)
  | submitCommandBuffers (commandBuffer : VkCommandBuffer) (imageIndex : Z)
      (result : VkResult)
  | wasWindowResized (resized : bool)
  | resetWindowResizedFlag.

(** The data members of [class renderer]. *)
Record renderer_t := {
  swapchainInstance : option swapchain;
  commandBuffers : list VkCommandBuffer;
  currentImageIndex : Z;
  currentFrameIndex : Z;
  isFrameStarted : bool
}.

Definition set_swapchainInstance (s : option swapchain) (r : renderer_t) :=
  {| swapchainInstance := s; commandBuffers := commandBuffers r;
     currentImageIndex := currentImageIndex r;
     currentFrameIndex := currentFrameIndex r; isFrameStarted := isFrameStarted r |}.

Definition set_currentImageIndex (i : Z) (r : renderer_t) :=
  {| swapchainInstance := swapchainInstance r; commandBuffers := commandBuffers r;
     currentImageIndex := i;
     currentFrameIndex := currentFrameIndex r; isFrameStarted := isFrameStarted r |}.

Definition set_currentFrameIndex (i : Z) (r : renderer_t) :=
  {| swapchainInstance := swapchainInstance r; commandBuffers := commandBuffers r;
     currentImageIndex := currentImageIndex r;
     currentFrameIndex := i; isFrameStarted := isFrameStarted r |}.

Definition set_isFrameStarted (b : bool) (r : renderer_t) :=
  {| swapchainInstance := swapchainInstance r; commandBuffers := commandBuffers r;
     currentImageIndex := currentImageIndex r;
     currentFrameIndex := currentFrameIndex r; isFrameStarted := b |}.

(** A member function: from the object before the call to the object
    after it, the calls it made, and how it ended. The object and the log
    are kept when the call throws. *)
Definition M (A : Type) : Type := renderer_t → renderer_t * list event * outcome A.

#[global] Instance M_ret : MRet M := λ A a r, (r, [], Return a).

#[global] Instance M_bind : MBind M := λ A B f m r,
  match m r with
  | (r1, l1, Return a) =>
      match f a r1 with (r2, l2, o) => (r2, l1 ++ l2, o) end
  | (r1, l1, Throw s) => (r1, l1, Throw s)
  | (r1, l1, Abort s) => (r1, l1, Abort s)
  | (r1, l1, Undefined) => (r1, l1, Undefined)
  | (r1, l1, Blocked) => (r1, l1, Blocked)
  end.

Definition this : M renderer_t := λ r, (r, [], Return r).
Definition modify (f : renderer_t → renderer_t) : M () := λ r, (f r, [], Return ()).
Definition call (e : event) : M () := λ r, (r, [e], Return ()).
Definition stop {A} (o : outcome A) : M A := λ r, (r, [], o).
Definition throw {A} (what : string) : M A := stop (Throw what).
Definition assert (b : bool) (message : string) : M () :=
  if b then mret () else stop (Abort message).

(** Answers of the window and of the new swapchain during one
    [recreateSwapchain]: the extents reported by successive calls of
    [windowInstance.getExtent()], and whether the formats of the old and
    the new swapchain compare equal. *)
Record recreate_oracle := {
  first_extent : VkExtent2D;
  later_extents : list VkExtent2D;
  same_formats : bool
}.

Definition degenerate (extent : VkExtent2D) : bool :=
  (width extent =? 0) || (height extent =? 0).

(** Lines 20-23: the [while] loop. [polls] are the extents the window
    reports to the calls of [getExtent] in the loop; when they run out while
    the extent is degenerate the call has not returned: it is still waiting
    for the window. *)
Fixpoint wait_for_extent (extent : VkExtent2D) (polls : list VkExtent2D)
  : M VkExtent2D :=
  if degenerate extent then
    match polls with
    | [] => stop Blocked
    | e :: polls' =>
        _ ← call (getExtent e);
        _ ← call glfwWaitEvents;
        wait_for_extent e polls'
    end
  else mret extent.

(** [renderer::recreateSwapchain]. *)
Definition recreateSwapchain (o : recreate_oracle) : M () :=
  _ ← call (getExtent (first_extent o));
  extent ← wait_for_extent (first_extent o) (later_extents o);
  _ ← call vkDeviceWaitIdle;
  r ← this;
  match swapchainInstance r with
  | None =>
      _ ← call (make_swapchain extent None);
      modify (set_swapchainInstance (Some {| windowExtent := extent |}))
  | Some oldSwapchainInstance =>
      _ ← call (make_swapchain extent (Some oldSwapchainInstance));
      _ ← modify (set_swapchainInstance (Some {| windowExtent := extent |}));
      _ ← call (compareSwapFormats (same_formats o));
      if negb (same_formats o)
      then throw "swap chain image or depth format has changed!"
      else mret ()
  end.

(** Modelled from the spec: [getCurrentCommandBuffer] is declared in
    renderer.hpp, which is not among the sources; the spec says recording
    goes "into the command buffer for the current frame slot", that is
    [commandBuffers[currentFrameIndex]]. *)
Definition getCurrentCommandBuffer : M VkCommandBuffer :=
  r ← this; stop (vec_at (commandBuffers r) (currentFrameIndex r)).

(** Answers received during one [beginFrame]. *)
Record beginFrame_oracle := {
  acquire_result : VkResult;
  acquire_imageIndex : Z;
  begin_result : VkResult;
  begin_recreate : recreate_oracle
}.

(** [renderer::beginFrame]. *)
Definition beginFrame (o : beginFrame_oracle) : M VkCommandBuffer :=
  r ← this;
  _ ← assert (negb (isFrameStarted r)) "Can't call beginFrame while already in progress";
  _ ← (if swapchainInstance r is None then stop Undefined else mret ());
  _ ← call (acquireNextImage (acquire_result o));
  _ ← modify (set_currentImageIndex (acquire_imageIndex o));
  let result := acquire_result o in
  if result =? VK_ERROR_OUT_OF_DATE_KHR then
    _ ← recreateSwapchain (begin_recreate o);
    mret nullptr
  else if negb (result =? VK_SUCCESS) && negb (result =? VK_SUBOPTIMAL_KHR) then
    throw "failed to acquire swap chain image!"
  else
    _ ← modify (set_isFrameStarted true);
    commandBuffer ← getCurrentCommandBuffer;
    _ ← call (vkBeginCommandBuffer commandBuffer (begin_result o));
    if negb (begin_result o =? VK_SUCCESS)
    then throw "failed to begin recording command buffer!"
    else mret commandBuffer.

(** Answers received during one [endFrame]. [window_resized] is what
    [windowInstance.wasWindowResized()] answers if it is asked. *)
Record endFrame_oracle := {
  end_result : VkResult;
  submit_result : VkResult;
  window_resized : bool;
  end_recreate : recreate_oracle
}.

Section Frames.

(** [swapchain::MAX_FRAMES_IN_FLIGHT], an [int] constant of
    swapchain.hpp, which is not among the sources. *)
Variable MAX_FRAMES_IN_FLIGHT : Z.

(** [(currentFrameIndex + 1) % MAX_FRAMES_IN_FLIGHT] in [int]. *)
Definition next_frame_index (currentFrameIndex : Z) : outcome Z :=
  s ← int_expr (currentFrameIndex + 1);
  if MAX_FRAMES_IN_FLIGHT =? 0 then Undefined
  else int_expr (Z.rem s MAX_FRAMES_IN_FLIGHT).

(** [renderer::endFrame]. The function is declared with the result type
    [VkCommandBuffer] and its body holds no [return] statement: a call that
    reaches the closing brace of line 112 flows off the end of a function
    that returns a value, which is undefined behaviour. The object and the
    log at that point are those left by lines 94-111. *)
Definition endFrame (o : endFrame_oracle) : M VkCommandBuffer :=
  r ← this;
  _ ← assert (isFrameStarted r) "Can't call endFrame while frame is not in progress";
  commandBuffer ← getCurrentCommandBuffer;
  _ ← call (vkEndCommandBuffer commandBuffer (end_result o));
  _ ← (if negb (end_result o =? VK_SUCCESS)
       then throw "failed to record command buffer!" else mret ());
  _ ← (if swapchainInstance r is None then stop Undefined else mret ());
  let result := submit_result o in
  _ ← call (submitCommandBuffers commandBuffer (currentImageIndex r) result);
  stale ← (if (result =? VK_ERROR_OUT_OF_DATE_KHR) || (result =? VK_SUBOPTIMAL_KHR)
           then mret true
           else _ ← call (wasWindowResized (window_resized o));
                mret (window_resized o));
  _ ← (if stale : bool then
         _ ← call resetWindowResizedFlag;
         recreateSwapchain (end_recreate o)
       else if negb (result =? VK_SUCCESS)
       then throw "failed to present swap chain image!"
       else mret ());
  _ ← modify (set_isFrameStarted false);
  r ← this;
  i ← stop (next_frame_index (currentFrameIndex r));
  _ ← modify (set_currentFrameIndex i);
  stop Undefined.

(** Whether a call returned to its caller. *)
Definition returned {A} (o : outcome A) : bool :=
  if o is Return _ then true else false.

(** *** The command buffers *)

(** Calls to the command pool. *)
Inductive pool_call :=
  | vkAllocateCommandBuffers (commandBufferCount : Z) (result : VkResult)
  | vkFreeCommandBuffers (commandBufferCount : Z).

Definition set_commandBuffers (l : list VkCommandBuffer) (r : renderer_t) :=
  {| swapchainInstance := swapchainInstance r; commandBuffers := l;
     currentImageIndex := currentImageIndex r;
     currentFrameIndex := currentFrameIndex r; isFrameStarted := isFrameStarted r |}.

(** [v.resize(n)] on a vector of handles: new places hold the null handle. *)
Definition resize (v : list VkCommandBuffer) (n : nat) : list VkCommandBuffer :=
  take n v ++ replicate (n - length v) nullptr.

(** What [vkAllocateCommandBuffers] answers: its result and the handle it
    writes at each place of the array. *)
Record allocate_oracle := {
  allocate_result : VkResult;
  allocated : nat → VkCommandBuffer
}.

(** The array after [vkAllocateCommandBuffers] has written [count] handles. *)
Definition write_handles (count : Z) (h : nat → VkCommandBuffer)
    (v : list VkCommandBuffer) : list VkCommandBuffer :=
  imap (λ i old, if Z.of_nat i <? count then h i else old) v.

(** [renderer::createCommandBuffers]. A negative size converts to a
    [size_t] beyond [max_size()], for which [resize] throws
    [std::length_error]. *)
Definition createCommandBuffers (o : allocate_oracle) (r : renderer_t)
  : renderer_t * list pool_call * outcome () :=
  if MAX_FRAMES_IN_FLIGHT <? 0 then (r, [], Throw "std::length_error")
  else
    let resized := resize (commandBuffers r) (Z.to_nat MAX_FRAMES_IN_FLIGHT) in
    let commandBufferCount := uint32 (size resized) in
    let r := set_commandBuffers
               (write_handles commandBufferCount (allocated o) resized) r in
    let log := [vkAllocateCommandBuffers commandBufferCount (allocate_result o)] in
    if negb (allocate_result o =? VK_SUCCESS)
    then (r, log, Throw "failed to allocate command buffers!")
    else (r, log, Return ()).

(** The constructor [renderer::renderer]. [r0] is the storage of the object
    with its default member initialisers applied; the swapchain pointer
    starts null and the vector of command buffers empty. *)
Definition construct (w : recreate_oracle) (a : allocate_oracle) (r0 : renderer_t)
  : renderer_t * list event * list pool_call * outcome () :=
  let r := set_commandBuffers [] (set_swapchainInstance None r0) in
  match recreateSwapchain w r with
  | (r, log, Return _) =>
      match createCommandBuffers a r with
      | (r, pool_log, out) => (r, log, pool_log, out)
      end
  | (r, log, out) => (r, log, [], out)
  end.

(** [renderer::freeCommandBuffers]: the count goes through
    [static_cast<float>] and back to [uint32_t]. *)
Definition freeCommandBuffers (r : renderer_t)
  : renderer_t * list pool_call * outcome () :=
  match uint32_of_float (float_of_Z (size (commandBuffers r))) with
  | Return commandBufferCount =>
      (set_commandBuffers [] r, [vkFreeCommandBuffers commandBufferCount], Return ())
  | Throw s => (r, [], Throw s)
  | Abort s => (r, [], Abort s)
  | Undefined => (r, [], Undefined)
  | Blocked => (r, [], Blocked)
  end.

(** The destructor [renderer::~renderer]. *)
Definition destroy (r : renderer_t) : renderer_t * list pool_call * outcome () :=
  freeCommandBuffers r.

End Frames.

(** *** The swapchain render pass *)

(** Commands recorded by [beginSwapchainRenderPass] and
    [endSwapchainRenderPass]. The render pass and the framebuffer are those
    of the swapchain [chain] for the image [imageIndex]. *)
Inductive render_command :=
  | vkCmdBeginRenderPass (commandBuffer : VkCommandBuffer) (chain : swapchain)
      (imageIndex : Z) (renderArea_offset : Z * Z) (renderArea_extent : VkExtent2D)
      (clearValueCount : Z) (color : float * float * float * float)
      (depth : float) (stencil : Z)
  | vkCmdSetViewport (commandBuffer : VkCommandBuffer) (firstViewport viewportCount : Z)
      (x y width height minDepth maxDepth : float)
  | vkCmdSetScissor (commandBuffer : VkCommandBuffer) (firstScissor scissorCount : Z)
      (offset : Z * Z) (extent : VkExtent2D)
  | vkCmdEndRenderPass (commandBuffer : VkCommandBuffer).

(** [assert] in a member function that does not change the object. *)
Definition check (b : bool) (message : string) : outcome () :=
  if b then Return () else Abort message.

Section RenderPass.

(** [swapchain::getSwapchainExtent], of swapchain.hpp, which is not among
    the sources. *)
Variable getSwapchainExtent : swapchain → VkExtent2D.

(** [renderer::beginSwapchainRenderPass]: the commands it records. *)
Definition beginSwapchainRenderPass (commandBuffer : VkCommandBuffer) (r : renderer_t)
  : outcome (list render_command) :=
  _ ← check (isFrameStarted r)
        "Can't call beginSwapchainRenderPass if frame is not in progress";
  current ← vec_at (commandBuffers r) (currentFrameIndex r);
  _ ← check (commandBuffer =? current)
        "Can't begin render pass on command buffer from a different frame";
  chain ← (if swapchainInstance r is Some s then Return s else Undefined);
  let extent := getSwapchainExtent chain in
  Return
    [ vkCmdBeginRenderPass commandBuffer chain (currentImageIndex r) (0, 0) extent
        2 (f0_01, f0_1, f0_1, f1) f1 0;
      vkCmdSetViewport commandBuffer 0 1 f0 f0
        (float_of_Z (width extent)) (float_of_Z (height extent)) f0 f1;
      vkCmdSetScissor commandBuffer 0 1 (0, 0) extent ].

(** [renderer::endSwapchainRenderPass]. *)
Definition endSwapchainRenderPass (commandBuffer : VkCommandBuffer) (r : renderer_t)
  : outcome (list render_command) :=
  _ ← check (isFrameStarted r)
        "Can't call endSwapchainRenderPass if frame is not in progress";
  current ← vec_at (commandBuffers r) (currentFrameIndex r);
  _ ← check (commandBuffer =? current)
        "Can't end render pass on command buffer from a different frame";
  Return [vkCmdEndRenderPass commandBuffer].

End RenderPass.

End renderer.

(** ** pointlightsystem.cpp *)

Module pointlightsystem.

(** Handles; the null handle is 0. *)
Definition VkPipelineLayout : Type := Z.
Definition VkRenderPass : Type := Z.
Definition VkDescriptorSetLayout : Type := Z.
Definition VkDescriptorSet : Type := Z.

(** The fields of [FrameInfo] (frameinfo.hpp, not among the sources) that
    [render] reads. *)
Record FrameInfo := {
  commandBuffer : renderer.VkCommandBuffer;
  globalDescriptorSet : VkDescriptorSet
}.

Section Pipeline.

(** [PipelineConfigInfo] is declared in pipeline.hpp, which is not among the
    sources: the four fields this file writes, with [Description] for the
    Vulkan vertex input descriptions and [Rest] for the other fields. *)
Context {Description Rest : Type}.

Record PipelineConfigInfo := {
  attributeDescriptions : list Description;
  bindingDescriptions : list Description;
  renderPass : VkRenderPass;
  pipelineLayout : VkPipelineLayout;
  rest : Rest
}.

(** A [pipeline] object, known by the arguments of its constructor. *)
Record pipeline := {
  vertFilepath : string;
  fragFilepath : string;
  configInfo : PipelineConfigInfo
}.

(** The data members of [class pointlightsystem]. *)
Record pointlightsystem_t := {
  layout : VkPipelineLayout;
  pipelineInstance : option pipeline
}.

(** Calls made while constructing and destroying. *)
Inductive event :=
  | vkCreatePipelineLayout (setLayouts : list VkDescriptorSetLayout)
      (pushConstantRangeCount : Z) (result : renderer.VkResult)
  | make_pipeline (p : pipeline)
  | vkDestroyPipelineLayout (l : VkPipelineLayout).

(** Commands recorded by [render]. *)
Inductive command :=
  | pipeline_bind (commandBuffer : renderer.VkCommandBuffer) (p : pipeline)
  | vkCmdBindDescriptorSets (commandBuffer : renderer.VkCommandBuffer)
      (l : VkPipelineLayout) (firstSet descriptorSetCount : Z)
      (descriptorSets : list VkDescriptorSet) (dynamicOffsetCount : Z)
  | vkCmdDraw (commandBuffer : renderer.VkCommandBuffer)
      (vertexCount instanceCount firstVertex firstInstance : Z).

(** Answers received by the constructor: the result of
    [vkCreatePipelineLayout] and the handle it writes, and the message of the
    exception of the [pipeline] constructor, if it throws. *)
Record construct_oracle := {
  create_result : renderer.VkResult;
  created_layout : VkPipelineLayout;
  pipeline_error : option string
}.

(** [pipeline::defaultPipelineConfigInfo] and the value-initialised
    configuration it is applied to. *)
Variable defaultPipelineConfigInfo : PipelineConfigInfo → PipelineConfigInfo.
Variable empty_config : PipelineConfigInfo.

(** [pointlightsystem::createPipelineLayout]. *)
Definition createPipelineLayout (o : construct_oracle)
    (globalSetLayout : VkDescriptorSetLayout) (s : pointlightsystem_t)
  : pointlightsystem_t * list event * outcome () :=
  let descriptorSetLayouts := [globalSetLayout] in
  let s := {| layout := created_layout o; pipelineInstance := pipelineInstance s |} in
  let log := [vkCreatePipelineLayout descriptorSetLayouts 0 (create_result o)] in
  if negb (create_result o =? renderer.VK_SUCCESS)
  then (s, log, Throw "failed to create pipeline layout!")
  else (s, log, Return ()).

(** [pointlightsystem::createPipeline]. *)
Definition createPipeline (o : construct_oracle) (pass : VkRenderPass)
    (s : pointlightsystem_t) : pointlightsystem_t * list event * outcome () :=
  if layout s =? 0
  then (s, [], Abort "Cannot create pipeline before pipeline layout")
  else
    let pipelineConfig := defaultPipelineConfigInfo empty_config in
    let pipelineConfig :=
      {| attributeDescriptions := []; bindingDescriptions := [];
         renderPass := pass; pipelineLayout := layout s;
         rest := rest pipelineConfig |} in
    let p := {| vertFilepath := "point_light.vert.spv";
                fragFilepath := "point_light.frag.spv";
                configInfo := pipelineConfig |} in
    match pipeline_error o with
    | Some what => (s, [], Throw what)
    | None =>
        ({| layout := layout s; pipelineInstance := Some p |}, [make_pipeline p],
         Return ())
    end.

(** The constructor [pointlightsystem::pointlightsystem]. *)
Definition construct (o : construct_oracle) (pass : VkRenderPass)
    (globalSetLayout : VkDescriptorSetLayout) (s0 : pointlightsystem_t)
  : pointlightsystem_t * list event * outcome () :=
  match createPipelineLayout o globalSetLayout s0 with
  | (s, log, Return _) =>
      match createPipeline o pass s with
      | (s, log', out) => (s, log ++ log', out)
      end
  | (s, log, out) => (s, log, out)
  end.

(** The destructor [pointlightsystem::~pointlightsystem]. *)
Definition destroy (s : pointlightsystem_t) : list event :=
  [vkDestroyPipelineLayout (layout s)].

(** [pointlightsystem::render]. *)
Definition render (frameInfo : FrameInfo) (s : pointlightsystem_t)
  : outcome (list command) :=
  match pipelineInstance s with
  | None => Undefined
  | Some p =>
      Return
        [ pipeline_bind (commandBuffer frameInfo) p;
          vkCmdBindDescriptorSets (commandBuffer frameInfo) (layout s) 0 1
            [globalDescriptorSet frameInfo] 0;
          vkCmdDraw (commandBuffer frameInfo) 6 1 0 0 ]
  end.

End Pipeline.

End pointlightsystem.

(** ** Vocabulary of the statements *)

(** All index triples of a mesh, in the order the two loops visit them. *)
Definition all_indices (shapes : list tinyobj.shape_t) : list tinyobj.index_t :=
  concat (map (λ shape, tinyobj.indices (tinyobj.mesh shape)) shapes).

(** The vertices built for a list of index triples. *)
Fixpoint loadVertices (attrib : tinyobj.attrib_t) (l : list tinyobj.index_t)
  : outcome (list model.Vertex) :=
  match l with
  | [] => Return []
  | index :: l' =>
      w ← model.loadVertex attrib index;
      ws ← loadVertices attrib l';
      Return (w :: ws)
  end.

(** The first place of a vertex sequence holding a vertex equal to [w]. *)
Fixpoint position_of (vs : list model.Vertex) (w : model.Vertex) : option nat :=
  match vs with
  | [] => None
  | u :: vs' => if model.Vertex_eqb u w then Some O else S <$> position_of vs' w
  end.

(** The builder and the table with which the loops of [loadModel] start. *)
Definition fresh_state : model.umap * model.Builder :=
  ([], {| model.vertices := []; model.indices := [] |}).

(** The table agrees with the vertex sequence: a vertex equal to itself is
    found exactly when the sequence holds an equal vertex, under the 32-bit
    value of its first place. *)
Definition table_agrees (m : model.umap) (vs : list model.Vertex) : Prop :=
  ∀ w, model.Vertex_eqb w w = true →
       model.umap_find m w = (λ p, uint32 (Z.of_nat p)) <$> position_of vs w.

(** Every value of the table and every emitted index is a place of the
    vertex sequence. *)
Definition in_range (st : model.umap * model.Builder) : Prop :=
  Forall (λ kv, 0 ≤ kv.2 < size (model.vertices st.2)) st.1
  ∧ Forall (λ i, 0 ≤ i < size (model.vertices st.2)) (model.indices st.2).

(** The three floats of [a] from place [i] on. *)
Definition three_at (a : list float) (i : Z) (v : vec3) : Prop :=
  0 ≤ i ∧ a !! Z.to_nat i = Some (x3 v) ∧ a !! Z.to_nat (i + 1) = Some (y3 v)
  ∧ a !! Z.to_nat (i + 2) = Some (z3 v).

(** ** Meshes used as concrete inputs *)

(** [2.f] and [3.f] in binary32. *)
Definition f2 : float := S754_finite false 8388608 (-22).
Definition f3 : float := S754_finite false 12582912 (-22).

Definition triple (v n t : Z) : tinyobj.index_t :=
  {| tinyobj.vertex_index := v; tinyobj.normal_index := n; tinyobj.texcoord_index := t |}.

Definition one_shape (l : list tinyobj.index_t) : tinyobj.shape_t :=
  {| tinyobj.mesh := {| tinyobj.indices := l |} |}.

Definition parsed (a : tinyobj.attrib_t) (shapes : list tinyobj.shape_t)
  : tinyobj.LoadObj_result :=
  {| tinyobj.ok := true; tinyobj.attrib := a; tinyobj.shapes := shapes;
     tinyobj.warn := ""; tinyobj.err := "" |}.

(** A unit square of two triangles sharing an edge; only the first two
    positions have a colour. *)
Definition quad_attrib : tinyobj.attrib_t :=
  {| tinyobj.vertices := [f0; f0; f0;  f1; f0; f0;  f1; f1; f0;  f0; f1; f0];
     tinyobj.normals := [];
     tinyobj.texcoords := [];
     tinyobj.colors := [f1; f0; f0;  f0; f1; f0] |}.

Definition quad_shapes : list tinyobj.shape_t :=
  [ one_shape [triple 0 (-1) (-1); triple 1 (-1) (-1); triple 2 (-1) (-1)];
    one_shape [triple 0 (-1) (-1); triple 2 (-1) (-1); triple 3 (-1) (-1)] ].

(** Two points, the second with a NaN coordinate. *)
Definition nan_attrib : tinyobj.attrib_t :=
  {| tinyobj.vertices := [f0; f0; f0;  S754_nan; f0; f0];
     tinyobj.normals := [];
     tinyobj.texcoords := [];
     tinyobj.colors := [] |}.

Definition nan_shapes : list tinyobj.shape_t :=
  [ one_shape [triple 0 (-1) (-1); triple 1 (-1) (-1)] ].

(** One point at (1,2,3) with the normal (0,0,1). *)
Definition lit_attrib : tinyobj.attrib_t :=
  {| tinyobj.vertices := [f1; f2; f3];
     tinyobj.normals := [f0; f0; f1];
     tinyobj.texcoords := [];
     tinyobj.colors := [] |}.

Definition lit_shapes : list tinyobj.shape_t := [ one_shape [triple 0 0 (-1)] ].

(** A file system with three meshes; any other path fails to parse. *)
Definition example_files (filepath : string) : tinyobj.LoadObj_result :=
  if String.eqb filepath "quad.obj" then parsed quad_attrib quad_shapes
  else if String.eqb filepath "nan.obj" then parsed nan_attrib nan_shapes
  else if String.eqb filepath "lit.obj" then parsed lit_attrib lit_shapes
  else {| tinyobj.ok := false; tinyobj.attrib := quad_attrib; tinyobj.shapes := [];
          tinyobj.warn := ""; tinyobj.err := "Cannot open file" |}.

Definition empty_builder : model.Builder :=
  {| model.vertices := []; model.indices := [] |}.

(** A builder left over from an earlier load. *)
Definition used_builder : model.Builder :=
  {| model.vertices := [model.Vertex_default]; model.indices := [0; 0; 0] |}.

(** The storage of a model before its constructor has run. *)
Definition raw_model : model.model_t :=
  {| model.vertexCount := 0; model.hasIndexBuffer := false;
     model.indexCount := 0; model.device_log := [] |}.

(** A vertex sequence and an index sequence of 2^32 elements. *)
Definition huge_vertices : list model.Vertex :=
  replicate (Z.to_nat (2 ^ 32)) model.Vertex_default.

Definition huge_indices : list Z := replicate (Z.to_nat (2 ^ 32)) 0.

(** The four vertices of the square. *)
Definition quad_builder : model.Builder :=
  (model.loadModel example_files "quad.obj" empty_builder).1.

(** ** Renderers and oracles used as concrete inputs *)

Definition extent (w h : Z) : renderer.VkExtent2D :=
  {| renderer.width := w; renderer.height := h |}.

(** A renderer between frames, with two frame slots. *)
Definition idle_renderer : renderer.renderer_t :=
  {| renderer.swapchainInstance := Some {| renderer.windowExtent := extent 800 600 |};
     renderer.commandBuffers := [101; 102];
     renderer.currentImageIndex := 0;
     renderer.currentFrameIndex := 0;
     renderer.isFrameStarted := false |}.

(** The same renderer inside a frame. *)
Definition busy_renderer : renderer.renderer_t :=
  renderer.set_isFrameStarted true idle_renderer.

(** A window that reports its size at once. *)
Definition steady_window : renderer.recreate_oracle :=
  {| renderer.first_extent := extent 1024 768; renderer.later_extents := [];
     renderer.same_formats := true |}.

(** A minimised window that is restored at the third poll. *)
Definition minimised_window : renderer.recreate_oracle :=
  {| renderer.first_extent := extent 0 0;
     renderer.later_extents := [extent 0 0; extent 800 600];
     renderer.same_formats := true |}.

(** A window whose new swapchain has other formats than the old one. *)
Definition reformatted_window : renderer.recreate_oracle :=
  {| renderer.first_extent := extent 1024 768; renderer.later_extents := [];
     renderer.same_formats := false |}.

Definition VK_ERROR_DEVICE_LOST : renderer.VkResult := -4.

Definition acquires (result : renderer.VkResult) (w : renderer.recreate_oracle)
  : renderer.beginFrame_oracle :=
  {| renderer.acquire_result := result; renderer.acquire_imageIndex := 1;
     renderer.begin_result := renderer.VK_SUCCESS; renderer.begin_recreate := w |}.

(** The image is acquired but the command buffer cannot begin recording. *)
Definition recording_fails : renderer.beginFrame_oracle :=
  {| renderer.acquire_result := renderer.VK_SUCCESS; renderer.acquire_imageIndex := 1;
     renderer.begin_result := VK_ERROR_DEVICE_LOST;
     renderer.begin_recreate := steady_window |}.

Definition submits (result : renderer.VkResult) (resized : bool)
    (w : renderer.recreate_oracle) : renderer.endFrame_oracle :=
  {| renderer.end_result := renderer.VK_SUCCESS; renderer.submit_result := result;
     renderer.window_resized := resized; renderer.end_recreate := w |}.

(** The calls made while polling the extents [es] one after the other: the
    first poll precedes the loop, every later one is followed by a wait. *)
Definition poll_log (es : list renderer.VkExtent2D) : list renderer.event :=
  match es with
  | [] => []
  | e :: es' =>
      renderer.getExtent e
      :: concat (map (λ e', [renderer.getExtent e'; renderer.glfwWaitEvents]) es')
  end.

(** A window that stays minimised. *)
Definition hidden_window : renderer.recreate_oracle :=
  {| renderer.first_extent := extent 0 600;
     renderer.later_extents := [extent 0 0; extent 800 0];
     renderer.same_formats := true |}.

(** What [recreateSwapchain] does once a valid extent [v] has been seen. *)
Definition replace_swapchain (o : renderer.recreate_oracle) (v : renderer.VkExtent2D)
    (r : renderer.renderer_t)
  : renderer.renderer_t * list renderer.event * outcome () :=
  (renderer.set_swapchainInstance (Some {| renderer.windowExtent := v |}) r,
   [renderer.vkDeviceWaitIdle; renderer.make_swapchain v (renderer.swapchainInstance r)]
   ++ (if renderer.swapchainInstance r is Some _
       then [renderer.compareSwapFormats (renderer.same_formats o)] else []),
   if renderer.swapchainInstance r is Some _ then
     if renderer.same_formats o then Return ()
     else Throw "swap chain image or depth format has changed!"
   else Return ()).

(** An index triple whose reads stay inside the arrays and inside [int]:
    positions and normals are both read from [attrib.vertices]. *)
Definition in_bounds (attrib : tinyobj.attrib_t) (index : tinyobj.index_t) : Prop :=
  (0 ≤ tinyobj.vertex_index index →
     3 * tinyobj.vertex_index index + 2 ≤ INT_MAX
     ∧ 3 * tinyobj.vertex_index index + 2 < size (tinyobj.vertices attrib))
  ∧ (0 ≤ tinyobj.normal_index index →
       3 * tinyobj.normal_index index + 2 ≤ INT_MAX
       ∧ 3 * tinyobj.normal_index index + 2 < size (tinyobj.vertices attrib))
  ∧ (0 ≤ tinyobj.texcoord_index index →
       2 * tinyobj.texcoord_index index + 1 ≤ INT_MAX
       ∧ 2 * tinyobj.texcoord_index index + 1 < size (tinyobj.texcoords attrib)).

(** The two floats of [a] from place [i] on. *)
Definition two_at (a : list float) (i : Z) (v : vec2) : Prop :=
  0 ≤ i ∧ a !! Z.to_nat i = Some (x2 v) ∧ a !! Z.to_nat (i + 1) = Some (y2 v).

(** No two places of the vertex sequence hold equal vertices. *)
Definition distinct_vertices (vs : list model.Vertex) : Prop :=
  ∀ p q u v, p ≠ q → vs !! p = Some u → vs !! q = Some v →
             model.Vertex_eqb u v = false.

(** One point with two normals; the triple uses the second normal. *)
Definition far_attrib : tinyobj.attrib_t :=
  {| tinyobj.vertices := [f1; f2; f3];
     tinyobj.normals := [f0; f0; f1;  f0; f1; f0];
     tinyobj.texcoords := [];
     tinyobj.colors := [] |}.

Definition far_shapes : list tinyobj.shape_t := [ one_shape [triple 0 1 (-1)] ].

(** The example file system with one more mesh. *)
Definition more_files (filepath : string) : tinyobj.LoadObj_result :=
  if String.eqb filepath "far.obj" then parsed far_attrib far_shapes
  else example_files filepath.

(** ** Buffers and memory held on the device *)

Definition buffer_name_eqb (a b : model.buffer_name) : bool :=
  match a, b with
  | model.stagingBuffer, model.stagingBuffer => true
  | model.vertexBuffer, model.vertexBuffer => true
  | model.indexBuffer, model.indexBuffer => true
  | _, _ => false
  end.

Definition held (n : model.buffer_name) (l : list model.buffer_name) : bool :=
  existsb (buffer_name_eqb n) l.

(** Remove a held name; nothing to remove is an error. *)
Fixpoint release (n : model.buffer_name) (l : list model.buffer_name)
  : option (list model.buffer_name) :=
  match l with
  | [] => None
  | x :: l' => if buffer_name_eqb x n then Some l' else (x ::.) <$> release n l'
  end.

(** The buffer handles and the memory allocations alive on the device. *)
Record resources := {
  buffers : list model.buffer_name;
  memories : list model.buffer_name
}.

Definition no_resources : resources := {| buffers := []; memories := [] |}.

(** The effect of one call on the resources. It is an error ([None]) to
    create a buffer into a handle that is still alive, to map, unmap or copy
    what is not alive, and to destroy or free what is not alive. *)
Definition device_step (s : resources) (c : model.device_call) : option resources :=
  match c with
  | model.createBuffer _ _ _ n =>
      if held n (buffers s) || held n (memories s) then None
      else Some {| buffers := n :: buffers s; memories := n :: memories s |}
  | model.vkMapMemory n _ => if held n (memories s) then Some s else None
  | model.memcpy _ => Some s
  | model.vkUnmapMemory n => if held n (memories s) then Some s else None
  | model.copyBuffer src dst _ =>
      if held src (buffers s) && held dst (buffers s) then Some s else None
  | model.vkDestroyBuffer n =>
      l ← release n (buffers s); Some {| buffers := l; memories := memories s |}
  | model.vkFreeMemory n =>
      l ← release n (memories s); Some {| buffers := buffers s; memories := l |}
  end.

Fixpoint device_run (s : resources) (log : list model.device_call) : option resources :=
  match log with
  | [] => Some s
  | c :: log' => s' ← device_step s c; device_run s' log'
  end.

(** The buffers a constructed model owns. *)
Definition owned (m : model.model_t) : list model.buffer_name :=
  (if model.hasIndexBuffer m then [model.indexBuffer] else []) ++ [model.vertexBuffer].

(** ** A renderer that is ready for frames *)


(** The storage of a renderer before its constructor has run. *)
Definition raw_renderer : renderer.renderer_t :=
  {| renderer.swapchainInstance := None; renderer.commandBuffers := [];
     renderer.currentImageIndex := 0; renderer.currentFrameIndex := 0;
     renderer.isFrameStarted := false |}.

(** An allocation that succeeds with the handles 101, 102, ... *)
Definition allocates : renderer.allocate_oracle :=
  {| renderer.allocate_result := renderer.VK_SUCCESS;
     renderer.allocated := λ i, 101 + Z.of_nat i |}.

(** A swapchain's own extent, taken to be the one it was constructed for. *)
Definition extent_of (s : renderer.swapchain) : renderer.VkExtent2D :=
  renderer.windowExtent s.

(** The renderer after a frame has been completed. *)
Definition next_slot (MAX_FRAMES_IN_FLIGHT : Z) (r : renderer.renderer_t)
  : renderer.renderer_t :=
  renderer.set_currentFrameIndex
    ((renderer.currentFrameIndex r + 1) mod MAX_FRAMES_IN_FLIGHT)
    (renderer.set_isFrameStarted false r).

(** The three commands of [beginSwapchainRenderPass] for the buffer [cb],
    the swapchain [s] of extent [e] and the image [i]. *)
Definition render_pass_commands (cb : renderer.VkCommandBuffer) (s : renderer.swapchain)
    (e : renderer.VkExtent2D) (i : Z) : list renderer.render_command :=
  [ renderer.vkCmdBeginRenderPass cb s i (0, 0) e 2 (f0_01, f0_1, f0_1, f1) f1 0;
    renderer.vkCmdSetViewport cb 0 1 f0 f0
      (float_of_Z (renderer.width e)) (float_of_Z (renderer.height e)) f0 f1;
    renderer.vkCmdSetScissor cb 0 1 (0, 0) e ].

(** ** Point light systems used as concrete inputs *)

(** A configuration with two vertex input descriptions of each kind. *)
Definition some_config : @pointlightsystem.PipelineConfigInfo Z string :=
  {| pointlightsystem.attributeDescriptions := [0; 1];
     pointlightsystem.bindingDescriptions := [0];
     pointlightsystem.renderPass := 0;
     pointlightsystem.pipelineLayout := 0;
     pointlightsystem.rest := "defaults" |}.

Definition raw_pointlightsystem : @pointlightsystem.pointlightsystem_t Z string :=
  {| pointlightsystem.layout := 0; pointlightsystem.pipelineInstance := None |}.

Definition layout_created : pointlightsystem.construct_oracle :=
  {| pointlightsystem.create_result := renderer.VK_SUCCESS;
     pointlightsystem.created_layout := 7;
     pointlightsystem.pipeline_error := None |}.

Definition layout_refused : pointlightsystem.construct_oracle :=
  {| pointlightsystem.create_result := VK_ERROR_DEVICE_LOST;
     pointlightsystem.created_layout := 0;
     pointlightsystem.pipeline_error := None |}.

(** ** Equality of floats and vertices *)

(** What [==] decides on floats. *)
Definition float_equal (a b : float) : Prop :=
  match a, b with
  | S754_zero _, S754_zero _ => True
  | S754_infinity s1, S754_infinity s2 => s1 = s2
  | S754_finite s1 m1 e1, S754_finite s2 m2 e2 => s1 = s2 ∧ m1 = m2 ∧ e1 = e2
  | _, _ => False
  end.

Lemma float_eqb_spec (a b : float) : float_eqb a b = true ↔ float_equal a b.
Proof.
  unfold float_eqb, SFeqb.
  destruct a as [s1|s1| |s1 m1 e1], b as [s2|s2| |s2 m2 e2]; simpl;
    try (intuition congruence);
    try (destruct s1; intuition congruence);
    try (destruct s2; intuition congruence);
    try (destruct s1, s2; intuition congruence).
  change (PosDef.Pos.compare_cont Eq m1 m2) with (Pos.compare m1 m2).
  destruct s1, s2; try (intuition congruence);
    destruct (Z.compare_spec e1 e2); destruct (Pos.compare_spec m1 m2);
    simpl; split; intros; try discriminate; try (intuition congruence);
    destruct_and?; subst; lia.
Qed.

Lemma float_equal_sym a b : float_equal a b → float_equal b a.
Proof. destruct a, b; simpl; intuition congruence. Qed.

Lemma float_equal_trans a b c : float_equal a b → float_equal b c → float_equal a c.
Proof. destruct a, b, c; simpl; intuition congruence. Qed.

Lemma float_eqb_sym a b : float_eqb a b = true → float_eqb b a = true.
Proof. rewrite !float_eqb_spec. apply float_equal_sym. Qed.

Lemma float_eqb_trans a b c :
  float_eqb a b = true → float_eqb b c = true → float_eqb a c = true.
Proof. rewrite !float_eqb_spec. apply float_equal_trans. Qed.

Lemma vec3_eqb_sym a b : vec3_eqb a b = true → vec3_eqb b a = true.
Proof.
  unfold vec3_eqb. rewrite !andb_true_iff.
  intros [[??]?]; auto using float_eqb_sym.
Qed.

Lemma vec3_eqb_trans a b c :
  vec3_eqb a b = true → vec3_eqb b c = true → vec3_eqb a c = true.
Proof.
  unfold vec3_eqb. rewrite !andb_true_iff.
  intros [[??]?] [[??]?]; repeat split; eapply float_eqb_trans; eassumption.
Qed.

Lemma vec2_eqb_sym a b : vec2_eqb a b = true → vec2_eqb b a = true.
Proof.
  unfold vec2_eqb. rewrite !andb_true_iff.
  intros [??]; auto using float_eqb_sym.
Qed.

Lemma vec2_eqb_trans a b c :
  vec2_eqb a b = true → vec2_eqb b c = true → vec2_eqb a c = true.
Proof.
  unfold vec2_eqb. rewrite !andb_true_iff.
  intros [??] [??]; repeat split; eapply float_eqb_trans; eassumption.
Qed.

Lemma Vertex_eqb_sym a b : model.Vertex_eqb a b = true → model.Vertex_eqb b a = true.
Proof.
  unfold model.Vertex_eqb. rewrite !andb_true_iff.
  intros [[[??]?]?]; auto using vec3_eqb_sym, vec2_eqb_sym.
Qed.

Lemma Vertex_eqb_trans a b c :
  model.Vertex_eqb a b = true → model.Vertex_eqb b c = true →
  model.Vertex_eqb a c = true.
Proof.
  unfold model.Vertex_eqb. rewrite !andb_true_iff.
  intros [[[??]?]?] [[[??]?]?]; repeat split;
    (eapply vec3_eqb_trans || eapply vec2_eqb_trans); eassumption.
Qed.

(** A vertex equal to some vertex is equal to itself: it has no NaN. *)
Lemma Vertex_eqb_refl_l a b : model.Vertex_eqb a b = true → model.Vertex_eqb a a = true.
Proof. eauto using Vertex_eqb_trans, Vertex_eqb_sym. Qed.

Lemma Vertex_eqb_refl_r a b : model.Vertex_eqb a b = true → model.Vertex_eqb b b = true.
Proof. eauto using Vertex_eqb_trans, Vertex_eqb_sym. Qed.

(** Equal vertices are equal to the same vertices. *)
Lemma Vertex_eqb_congr u a b :
  model.Vertex_eqb a b = true → model.Vertex_eqb u a = model.Vertex_eqb u b.
Proof.
  intros Hab.
  destruct (model.Vertex_eqb u a) eqn:Ha, (model.Vertex_eqb u b) eqn:Hb; try done.
  - rewrite <- Hb. symmetry. eauto using Vertex_eqb_trans.
  - rewrite <- Ha. eauto using Vertex_eqb_trans, Vertex_eqb_sym.
Qed.

(** ** The loops of [loadModel] *)

Lemma outcome_bind_Return {A B} (f : A → outcome B) (m : outcome A) (b : B) :
  m ≫= f = Return b → ∃ a, m = Return a ∧ f a = Return b.
Proof. destruct m; simpl; try discriminate. eauto. Qed.

Lemma loadIndices_app attrib l1 l2 st :
  model.loadIndices attrib (l1 ++ l2) st
  = model.loadIndices attrib l1 st ≫= model.loadIndices attrib l2.
Proof.
  revert st. induction l1 as [|index l1 IH]; intros st; simpl; [done|].
  destruct (model.loadVertex attrib index); simpl; auto.
Qed.

(** The nested loops visit the triples of [all_indices] in order. *)
Lemma loadShapes_flat attrib shapes st :
  model.loadShapes attrib shapes st = model.loadIndices attrib (all_indices shapes) st.
Proof.
  revert st. induction shapes as [|shape shapes IH]; intros st; simpl; [done|].
  unfold all_indices. simpl. rewrite loadIndices_app.
  destruct (model.loadIndices attrib _ st); simpl; auto.
Qed.

(** The loop builds each vertex and hands it to [emitVertex]. *)
Lemma loadIndices_fold attrib l st :
  model.loadIndices attrib l st
  = loadVertices attrib l ≫= λ ws, Return (foldl model.emitVertex st ws).
Proof.
  revert st. induction l as [|index l IH]; intros st; simpl; [done|].
  destruct (model.loadVertex attrib index) as [w| | | |]; simpl; auto.
  rewrite IH. destruct (loadVertices attrib l); simpl; auto.
Qed.

Lemma loadVertices_Return attrib l ws :
  loadVertices attrib l = Return ws →
  Forall2 (λ index w, model.loadVertex attrib index = Return w) l ws.
Proof.
  revert ws. induction l as [|index l IH]; intros ws; simpl.
  - intros [= <-]. constructor.
  - intros H. apply outcome_bind_Return in H as (w & Hw & H).
    apply outcome_bind_Return in H as (ws' & Hws & [= <-]).
    constructor; auto.
Qed.

Lemma Forall2_loadVertices attrib l ws :
  Forall2 (λ index w, model.loadVertex attrib index = Return w) l ws →
  loadVertices attrib l = Return ws.
Proof. induction 1 as [|index w l ws Hw _ IH]; simpl; [done|]. by rewrite Hw, IH. Qed.

Section LoaderFacts.

Variable LoadObj : string → tinyobj.LoadObj_result.

(** A load that returns parsed the file, built a vertex for every index
    triple and ran [emitVertex] over them from the fresh state. *)
Lemma loadModel_Return filepath b b' :
  model.loadModel LoadObj filepath b = (b', Return ()) →
  tinyobj.ok (LoadObj filepath) = true ∧
  ∃ ws m,
    loadVertices (tinyobj.attrib (LoadObj filepath))
      (all_indices (tinyobj.shapes (LoadObj filepath))) = Return ws
    ∧ foldl model.emitVertex fresh_state ws = (m, b').
Proof.
  unfold model.loadModel.
  destruct (tinyobj.ok (LoadObj filepath)); simpl; [|discriminate].
  rewrite loadShapes_flat, loadIndices_fold.
  destruct (loadVertices _ _) as [ws| | | |]; simpl; try discriminate.
  destruct (foldl model.emitVertex _ ws) as [m b''] eqn:Hfold.
  intros [= <-]. split; [done|]. exists ws, m. split; [done|]. exact Hfold.
Qed.

End LoaderFacts.

(** ** Deduplication *)

Lemma uint32_range z : 0 ≤ uint32 z < 2 ^ 32.
Proof. unfold uint32. apply Z.mod_pos_bound. lia. Qed.

Lemma uint32_le z : 0 ≤ z → uint32 z ≤ z.
Proof. intros. unfold uint32. apply Z.mod_le; lia. Qed.

Lemma uint32_small z : 0 ≤ z < 2 ^ 32 → uint32 z = z.
Proof. intros. unfold uint32. apply Z.mod_small. lia. Qed.

Lemma size_app {A} (l k : list A) : size (l ++ k) = size l + size k.
Proof. unfold size. rewrite length_app. lia. Qed.

Lemma size_nonneg {A} (l : list A) : 0 ≤ size l.
Proof. unfold size. lia. Qed.

Lemma umap_find_cons k i m w :
  model.umap_find ((k, i) :: m) w
  = if model.Vertex_eqb k w then Some i else model.umap_find m w.
Proof. unfold model.umap_find. simpl. by destruct (model.Vertex_eqb k w). Qed.

(** Only a vertex without NaN is ever found. *)
Lemma umap_find_Some_self m w i :
  model.umap_find m w = Some i → model.Vertex_eqb w w = true.
Proof.
  induction m as [|[k j] m IH]; [done|].
  rewrite umap_find_cons. destruct (model.Vertex_eqb k w) eqn:Hk; [|done].
  intros _. eauto using Vertex_eqb_refl_r.
Qed.

Lemma umap_find_In m w i :
  model.umap_find m w = Some i → ∃ k, (k, i) ∈ m.
Proof.
  induction m as [|[k j] m IH]; [done|].
  rewrite umap_find_cons. destruct (model.Vertex_eqb k w).
  - intros [= ->]. exists k. left.
  - intros H. destruct (IH H) as [k' ?]. exists k'. by right.
Qed.

(** One round of lines 191-195, case by case. *)
Lemma emitVertex_eq m b v :
  model.emitVertex (m, b) v =
    let n := uint32 (size (model.vertices b)) in
    match model.umap_find m v with
    | Some i =>
        (m, {| model.vertices := model.vertices b;
               model.indices := model.indices b ++ [i] |})
    | None =>
        if model.Vertex_eqb v v then
          ((v, n) :: m, {| model.vertices := model.vertices b ++ [v];
                           model.indices := model.indices b ++ [n] |})
        else
          ((v, 0) :: (v, n) :: m,
           {| model.vertices := model.vertices b ++ [v];
              model.indices := model.indices b ++ [0] |})
    end.
Proof.
  unfold model.emitVertex, model.umap_count, model.umap_subscript, model.umap_assign.
  destruct (model.umap_find m v) as [i|] eqn:Hfind; simpl.
  - by rewrite Hfind.
  - rewrite umap_find_cons, Hfind. by destruct (model.Vertex_eqb v v).
Qed.

Lemma position_of_snoc vs v w :
  position_of (vs ++ [v]) w =
    match position_of vs w with
    | Some p => Some p
    | None => if model.Vertex_eqb v w then Some (length vs) else None
    end.
Proof.
  induction vs as [|u vs IH]; simpl.
  - by destruct (model.Vertex_eqb v w).
  - destruct (model.Vertex_eqb u w); [done|]. rewrite IH.
    destruct (position_of vs w); simpl; [done|].
    by destruct (model.Vertex_eqb v w).
Qed.

Lemma position_of_Some vs w p :
  position_of vs w = Some p →
  ∃ u, vs !! p = Some u ∧ model.Vertex_eqb u w = true.
Proof.
  revert p. induction vs as [|u vs IH]; intros p; simpl; [done|].
  destruct (model.Vertex_eqb u w) eqn:Hu.
  - intros [= <-]. eauto.
  - destruct (position_of vs w) as [q|]; simpl; [|done].
    intros [= <-]. simpl. eauto.
Qed.

Lemma position_of_None vs w :
  position_of vs w = None ↔ Forall (λ u, model.Vertex_eqb u w = false) vs.
Proof.
  induction vs as [|u vs IH]; simpl.
  - split; [constructor|done].
  - destruct (model.Vertex_eqb u w) eqn:Hu.
    + split; [done|]. inversion 1; congruence.
    + destruct (position_of vs w); simpl.
      * split; [done|]. inversion 1 as [|?? _ Hvs]. apply IH in Hvs. discriminate.
      * split; [|done]. constructor; [done|]. by apply IH.
Qed.

Lemma position_of_congr vs a b :
  model.Vertex_eqb a b = true → position_of vs a = position_of vs b.
Proof.
  intros Hab. induction vs as [|u vs IH]; simpl; [done|].
  by rewrite (Vertex_eqb_congr u a b Hab), IH.
Qed.

Lemma table_agrees_fresh : table_agrees fresh_state.1 (model.vertices fresh_state.2).
Proof. intros w _. done. Qed.

Lemma table_agrees_emit m b v :
  table_agrees m (model.vertices b) →
  table_agrees (model.emitVertex (m, b) v).1
    (model.vertices (model.emitVertex (m, b) v).2).
Proof.
  intros Hinv. rewrite emitVertex_eq. cbv zeta.
  destruct (model.umap_find m v) as [i|] eqn:Hfind; simpl; [done|].
  destruct (model.Vertex_eqb v v) eqn:Hv; simpl; intros w Hw;
    rewrite ?umap_find_cons, position_of_snoc, (Hinv w Hw).
  - destruct (model.Vertex_eqb v w) eqn:Hvw.
    + assert (position_of (model.vertices b) w = None) as ->.
      { rewrite <- (position_of_congr _ v w Hvw).
        specialize (Hinv v Hv). rewrite Hfind in Hinv.
        by destruct (position_of (model.vertices b) v). }
      simpl. unfold size. done.
    + by destruct (position_of (model.vertices b) w).
  - assert (model.Vertex_eqb v w = false) as ->.
    { destruct (model.Vertex_eqb v w) eqn:Hvw; [|done].
      apply Vertex_eqb_refl_l in Hvw. congruence. }
    by destruct (position_of (model.vertices b) w).
Qed.

Lemma in_range_fresh : in_range fresh_state.
Proof. split; constructor. Qed.

Lemma in_range_emit m b v : in_range (m, b) → in_range (model.emitVertex (m, b) v).
Proof.
  intros [Hm Hi]. simpl in Hm, Hi. rewrite emitVertex_eq. cbv zeta.
  pose proof (size_nonneg (model.vertices b)) as Hsz.
  pose proof (uint32_range (size (model.vertices b))) as Hr.
  pose proof (uint32_le _ Hsz) as Hle.
  destruct (model.umap_find m v) as [i|] eqn:Hfind.
  - split; simpl; [done|]. apply Forall_app. split; [done|].
    apply Forall_singleton. apply umap_find_In in Hfind as [k Hk].
    rewrite Forall_forall in Hm. apply (Hm _ Hk).
  - assert (Forall (λ kv : model.Vertex * Z,
              0 ≤ kv.2 < size (model.vertices b ++ [v])) m) as Hm'.
    { eapply Forall_impl; [exact Hm|]. simpl. intros kv ?.
      rewrite size_app. unfold size at 2. simpl. lia. }
    assert (Forall (λ i, 0 ≤ i < size (model.vertices b ++ [v]))
              (model.indices b)) as Hi'.
    { eapply Forall_impl; [exact Hi|]. simpl. intros i ?.
      rewrite size_app. unfold size at 2. simpl. lia. }
    assert (size (model.vertices b ++ [v]) = size (model.vertices b) + 1) as Hs.
    { rewrite size_app. done. }
    destruct (model.Vertex_eqb v v); split; simpl;
      repeat (apply Forall_cons_2; [simpl; lia|]); try done;
      (apply Forall_app_2; [done|]); apply Forall_singleton; lia.
Qed.

(** *** The state after a sequence of vertices *)

Lemma emitVertex_grows m b v :
  model.vertices b `prefix_of` model.vertices (model.emitVertex (m, b) v).2
  ∧ ∃ i, model.indices (model.emitVertex (m, b) v).2 = model.indices b ++ [i].
Proof.
  rewrite emitVertex_eq. cbv zeta.
  destruct (model.umap_find m v); [|destruct (model.Vertex_eqb v v)]; simpl;
    (split; [|eauto]); try done; by apply prefix_app_r.
Qed.

Lemma emitVertex_only_adds m b v u :
  u ∈ model.vertices (model.emitVertex (m, b) v).2 → u ∈ model.vertices b ∨ u = v.
Proof.
  rewrite emitVertex_eq. cbv zeta.
  destruct (model.umap_find m v); [|destruct (model.Vertex_eqb v v)]; simpl;
    rewrite ?elem_of_app, ?list_elem_of_singleton; tauto.
Qed.

Lemma fold_invariants ws :
  let st := foldl model.emitVertex fresh_state ws in
  table_agrees st.1 (model.vertices st.2) ∧ in_range st.
Proof.
  induction ws as [|v ws IH] using rev_ind; simpl.
  - split; [apply table_agrees_fresh | apply in_range_fresh].
  - rewrite foldl_snoc. simpl in IH.
    destruct (foldl model.emitVertex fresh_state ws) as [m b].
    destruct IH as [Ht Hr]. split; [by apply table_agrees_emit | by apply in_range_emit].
Qed.

Lemma fold_indices_length ws :
  length (model.indices (foldl model.emitVertex fresh_state ws).2) = length ws.
Proof.
  induction ws as [|v ws IH] using rev_ind; [done|].
  rewrite foldl_snoc, length_app. simpl.
  destruct (foldl model.emitVertex fresh_state ws) as [m b].
  destruct (emitVertex_grows m b v) as [_ [i ->]].
  rewrite length_app. simpl in *. lia.
Qed.

Lemma fold_grows ws ws' :
  let st := foldl model.emitVertex fresh_state ws in
  let st' := foldl model.emitVertex fresh_state (ws ++ ws') in
  model.vertices st.2 `prefix_of` model.vertices st'.2
  ∧ model.indices st.2 `prefix_of` model.indices st'.2.
Proof.
  induction ws' as [|v ws' IH] using rev_ind; simpl.
  - by rewrite app_nil_r.
  - rewrite app_assoc, foldl_snoc. simpl in IH.
    destruct (foldl model.emitVertex fresh_state (ws ++ ws')) as [m b].
    destruct IH as [Hv Hi].
    destruct (emitVertex_grows m b v) as [Hv' [i Hi']]. split.
    + by etrans.
    + etrans; [exact Hi|]. rewrite Hi'. by apply prefix_app_r.
Qed.

Lemma fold_vertices_from_input ws u :
  u ∈ model.vertices (foldl model.emitVertex fresh_state ws).2 → u ∈ ws.
Proof.
  induction ws as [|v ws IH] using rev_ind; simpl.
  - by intros ?%elem_of_nil.
  - rewrite foldl_snoc.
    destruct (foldl model.emitVertex fresh_state ws) as [m b].
    intros [?| ->]%emitVertex_only_adds; apply elem_of_app.
    + left. by apply IH.
    + right. by apply list_elem_of_singleton.
Qed.

Lemma position_of_prefix vs vs' w p :
  vs `prefix_of` vs' → position_of vs w = Some p → position_of vs' w = Some p.
Proof.
  intros [k ->] Hp. induction k as [|v k IH] using rev_ind.
  - by rewrite app_nil_r.
  - by rewrite app_assoc, position_of_snoc, IH.
Qed.

(** The index emitted for a vertex without NaN is the 32-bit value of the
    first place holding an equal vertex. *)
Lemma emitVertex_index m b v :
  table_agrees m (model.vertices b) → model.Vertex_eqb v v = true →
  ∃ p, position_of (model.vertices (model.emitVertex (m, b) v).2) v = Some p
       ∧ model.indices (model.emitVertex (m, b) v).2
         = model.indices b ++ [uint32 (Z.of_nat p)].
Proof.
  intros Hinv Hv. rewrite emitVertex_eq. cbv zeta. pose proof (Hinv v Hv) as Hf.
  destruct (model.umap_find m v) as [i|] eqn:Hfind; simpl.
  - destruct (position_of (model.vertices b) v) as [p|]; [|done].
    injection Hf as ->. eauto.
  - rewrite Hv. simpl. rewrite position_of_snoc.
    destruct (position_of (model.vertices b) v) as [p|]; [done|].
    rewrite Hv. eauto.
Qed.

Lemma fold_index ws i w :
  ws !! i = Some w → model.Vertex_eqb w w = true →
  let st := foldl model.emitVertex fresh_state ws in
  ∃ p, position_of (model.vertices st.2) w = Some p
       ∧ model.indices st.2 !! i = Some (uint32 (Z.of_nat p)).
Proof.
  intros Hi Hw. apply take_drop_middle in Hi as Hsplit.
  assert (length (take i ws) = i) as Hlen.
  { apply lookup_lt_Some in Hi. rewrite length_take. lia. }
  rewrite <- Hsplit. rewrite (cons_middle w), app_assoc.
  pose proof (fold_grows (take i ws ++ [w]) (drop (S i) ws)) as [Hv Hx].
  cbv zeta. simpl in Hv, Hx.
  pose proof (fold_invariants (take i ws)) as [Ht _].
  pose proof (fold_indices_length (take i ws)) as Hl.
  rewrite foldl_snoc in Hv, Hx. simpl in Ht.
  destruct (foldl model.emitVertex fresh_state (take i ws)) as [m b].
  destruct (emitVertex_index m b w Ht Hw) as (p & Hp & Hidx).
  exists p. split.
  - eapply position_of_prefix; [exact Hv | exact Hp].
  - eapply prefix_lookup_Some; [|exact Hx]. rewrite Hidx.
    simpl in Hl. rewrite <- Hlen at 1. rewrite <- Hl. apply list_lookup_middle. done.
Qed.

(** ** The vertex of one index triple *)

Lemma int_expr_Return z c : int_expr z = Return c → c = z ∧ INT_MIN ≤ z ≤ INT_MAX.
Proof.
  unfold int_expr. destruct (_ && _) eqn:Hb; [|discriminate].
  apply andb_true_iff in Hb as [?%Z.leb_le ?%Z.leb_le]. intros [= <-]. lia.
Qed.

Lemma int_mul_add_Return a i k c :
  int_mul_add a i k = Return c → c = a * i + k ∧ INT_MIN ≤ c ≤ INT_MAX.
Proof.
  unfold int_mul_add. intros (m & Hm & Hc)%outcome_bind_Return.
  apply int_expr_Return in Hm as [-> _]. apply int_expr_Return in Hc as [-> ?]. done.
Qed.

Lemma vec_at_Return {A} (v : list A) i x :
  vec_at v i = Return x → 0 ≤ i ∧ v !! Z.to_nat i = Some x.
Proof.
  unfold vec_at. destruct (Z.ltb_spec i 0); [discriminate|].
  destruct (v !! Z.to_nat i); [|discriminate]. by intros [= ->].
Qed.

Lemma read_Return a (v : list float) i k x :
  int_mul_add a i k ≫= vec_at v = Return x →
  INT_MIN ≤ a * i + k ≤ INT_MAX ∧ 0 ≤ a * i + k
  ∧ v !! Z.to_nat (a * i + k) = Some x.
Proof.
  intros (c & Hc & Hx)%outcome_bind_Return.
  apply int_mul_add_Return in Hc as [-> ?]. apply vec_at_Return in Hx as [? ?]. done.
Qed.

Tactic Notation "bind_inv" hyp(H) "as" ident(x) ident(Hx) :=
  apply outcome_bind_Return in H as (x & Hx & H).

Lemma set_position_color_spec attrib index v v' :
  model.set_position_color attrib index v = Return v' →
  model.normal v' = model.normal v ∧ model.uv v' = model.uv v
  ∧ (tinyobj.vertex_index index < 0 → v' = v)
  ∧ (0 ≤ tinyobj.vertex_index index →
       let colorIndex := 3 * tinyobj.vertex_index index + 2 in
       three_at (tinyobj.vertices attrib) (3 * tinyobj.vertex_index index)
         (model.position v')
       ∧ (colorIndex < size (tinyobj.colors attrib) →
            three_at (tinyobj.colors attrib) (colorIndex - 2) (model.color v'))
       ∧ (size (tinyobj.colors attrib) ≤ colorIndex →
            model.color v' = Vec3 f1 f1 f1)).
Proof.
  unfold model.set_position_color. intros H.
  destruct (Z.leb_spec 0 (tinyobj.vertex_index index)) as [Hp|Hp].
  2:{ injection H as <-. repeat split; try done; lia. }
  bind_inv H as px Hpx. bind_inv H as py Hpy. bind_inv H as pz Hpz.
  bind_inv H as colorIndex Hci. bind_inv H as c Hc. injection H as <-. simpl.
  apply read_Return in Hpx as (_ & ? & Hpx), Hpy as (_ & ? & Hpy), Hpz as (_ & ? & Hpz).
  apply int_mul_add_Return in Hci as [-> Hr].
  replace (3 * tinyobj.vertex_index index + 0)
    with (3 * tinyobj.vertex_index index) in * by lia.
  unfold to_size_t in Hc. rewrite Z.mod_small in Hc by (unfold INT_MAX in Hr; lia).
  split; [done|]. split; [done|]. split; [lia|]. intros _.
  split; [by unfold three_at|]. split.
  - intros Hlt. apply Z.ltb_lt in Hlt as Hltb. rewrite Hltb in Hc.
    bind_inv Hc as cr Hcr. bind_inv Hc as cg Hcg. bind_inv Hc as cb Hcb.
    injection Hc as <-.
    apply vec_at_Return in Hcr as [? Hcr], Hcg as [? Hcg], Hcb as [? Hcb].
    unfold three_at. simpl.
    replace (3 * tinyobj.vertex_index index + 2 - 2 + 1)
      with (3 * tinyobj.vertex_index index + 2 - 1) by lia.
    replace (3 * tinyobj.vertex_index index + 2 - 2 + 2)
      with (3 * tinyobj.vertex_index index + 2 - 0) by lia.
    done.
  - intros Hge. apply Z.ltb_ge in Hge as Hgeb. rewrite Hgeb in Hc.
    by injection Hc as <-.
Qed.

Lemma set_normal_spec attrib index v v' :
  model.set_normal attrib index v = Return v' →
  model.position v' = model.position v ∧ model.color v' = model.color v
  ∧ model.uv v' = model.uv v
  ∧ (tinyobj.normal_index index < 0 → v' = v)
  ∧ (0 ≤ tinyobj.normal_index index →
       three_at (tinyobj.vertices attrib) (3 * tinyobj.normal_index index)
         (model.normal v')).
Proof.
  unfold model.set_normal. intros H.
  destruct (Z.leb_spec 0 (tinyobj.normal_index index)) as [Hp|Hp].
  2:{ injection H as <-. repeat split; try done; lia. }
  bind_inv H as nx Hnx. bind_inv H as ny Hny. bind_inv H as nz Hnz.
  injection H as <-. simpl.
  apply read_Return in Hnx as (_ & ? & Hnx), Hny as (_ & ? & Hny), Hnz as (_ & ? & Hnz).
  replace (3 * tinyobj.normal_index index + 0)
    with (3 * tinyobj.normal_index index) in * by lia.
  split; [done|]. split; [done|]. split; [done|]. split; [lia|]. intros _.
  by unfold three_at.
Qed.

Lemma set_uv_spec attrib index v v' :
  model.set_uv attrib index v = Return v' →
  model.position v' = model.position v ∧ model.color v' = model.color v
  ∧ model.normal v' = model.normal v.
Proof.
  unfold model.set_uv. intros H.
  destruct (0 <=? tinyobj.texcoord_index index).
  - bind_inv H as tu Htu. bind_inv H as tv Htv. by injection H as <-.
  - by injection H as <-.
Qed.

(** Lines 163-173: the colour of a vertex with a position index. *)
Lemma loadVertex_color attrib index w :
  model.loadVertex attrib index = Return w →
  0 ≤ tinyobj.vertex_index index →
  let colorIndex := 3 * tinyobj.vertex_index index + 2 in
  (colorIndex < size (tinyobj.colors attrib) →
     three_at (tinyobj.colors attrib) (colorIndex - 2) (model.color w))
  ∧ (size (tinyobj.colors attrib) ≤ colorIndex → model.color w = Vec3 f1 f1 f1).
Proof.
  intros H Hp. unfold model.loadVertex in H.
  bind_inv H as v1 H1. bind_inv H as v2 H2.
  apply set_uv_spec in H as (_ & -> & _).
  apply set_normal_spec in H2 as (_ & -> & _).
  apply set_position_color_spec in H1 as (_ & _ & _ & H1).
  destruct (H1 Hp) as (_ & ? & ?). done.
Qed.

(** Lines 176-182: the normal is read from the position array. *)
Lemma loadVertex_normal attrib index w :
  model.loadVertex attrib index = Return w →
  (0 ≤ tinyobj.normal_index index →
     three_at (tinyobj.vertices attrib) (3 * tinyobj.normal_index index)
       (model.normal w))
  ∧ (tinyobj.normal_index index < 0 → model.normal w = Vec3 f0 f0 f0).
Proof.
  intros H. unfold model.loadVertex in H.
  bind_inv H as v1 H1. bind_inv H as v2 H2.
  apply set_uv_spec in H as (_ & _ & ->).
  apply set_normal_spec in H2 as (_ & _ & _ & Hneg & Hpos).
  apply set_position_color_spec in H1 as (Hn1 & _).
  split; [done|]. intros Hn. by rewrite (Hneg Hn), Hn1.
Qed.


(** ** Properties of [Builder::loadModel] *)

Section LoadModel.

Variable LoadObj : string → tinyobj.LoadObj_result.

(** The vertex of every index triple of a load that returned. *)
Lemma loadModel_vertices filepath b b' :
  model.loadModel LoadObj filepath b = (b', Return ()) →
  ∃ ws m,
    Forall2 (λ index w,
        model.loadVertex (tinyobj.attrib (LoadObj filepath)) index = Return w)
      (all_indices (tinyobj.shapes (LoadObj filepath))) ws
    ∧ foldl model.emitVertex fresh_state ws = (m, b').
Proof.
  intros (_ & ws & m & Hws & Hfold)%loadModel_Return.
  exists ws, m. split; [by apply loadVertices_Return | done].
Qed.

(** C2. After a load that returns, every element of the index sequence is
    a place of the vertex sequence: it is at least 0 and less than the
    number of vertices. *)
Theorem loadModel_indices_in_range filepath b b' :
  model.loadModel LoadObj filepath b = (b', Return ()) →
  Forall (λ i, 0 ≤ i < size (model.vertices b')) (model.indices b').
Proof.
  intros (ws & m & _ & Hfold)%loadModel_vertices.
  pose proof (fold_invariants ws) as [_ [_ Hi]].
  by rewrite Hfold in Hi.
Qed.

(** C4. For every index triple with a position index [p >= 0], with
    [colorIndex = 3*p + 2]: if [colorIndex] is less than the length of the
    colour array, the colour of the vertex is the three floats at
    [colorIndex-2], [colorIndex-1], [colorIndex]; otherwise it is white. *)
Theorem loadModel_color filepath b b' index :
  model.loadModel LoadObj filepath b = (b', Return ()) →
  index ∈ all_indices (tinyobj.shapes (LoadObj filepath)) →
  0 ≤ tinyobj.vertex_index index →
  let attrib := tinyobj.attrib (LoadObj filepath) in
  let colorIndex := 3 * tinyobj.vertex_index index + 2 in
  ∃ w, model.loadVertex attrib index = Return w
    ∧ (colorIndex < size (tinyobj.colors attrib) →
         three_at (tinyobj.colors attrib) (colorIndex - 2) (model.color w))
    ∧ (size (tinyobj.colors attrib) ≤ colorIndex →
         model.color w = Vec3 f1 f1 f1).
Proof.
  intros (ws & m & Hws & _)%loadModel_vertices Hin Hp.
  apply list_elem_of_lookup in Hin as [i Hi].
  destruct (Forall2_lookup_l _ _ _ _ _ Hws Hi) as (w & _ & Hw).
  exists w. split; [done|]. by apply loadVertex_color.
Qed.

(** C10. When the parser fails, the call throws the parser's messages and
    the builder is exactly as it was before the call. *)
Theorem loadModel_parse_failure filepath b :
  tinyobj.ok (LoadObj filepath) = false →
  model.loadModel LoadObj filepath b
  = (b, Throw (tinyobj.warn (LoadObj filepath) +:+ tinyobj.err (LoadObj filepath))).
Proof. intros H. unfold model.loadModel. by rewrite H. Qed.

(** X21. In a load that returns: two index triples whose vertices compare
    equal get the same index, which is a place of the vertex sequence and,
    when the sequence has at most 2^32 vertices, holds a vertex equal to
    both; and a vertex that is equal to itself (it has no NaN) and to no
    vertex of an earlier triple is appended at the end of the vertex
    sequence, and the 32-bit value of its new place is emitted. *)
Theorem loadModel_deduplicates filepath b b' :
  model.loadModel LoadObj filepath b = (b', Return ()) →
  let attrib := tinyobj.attrib (LoadObj filepath) in
  let triples := all_indices (tinyobj.shapes (LoadObj filepath)) in
  (∀ i j ti tj wi wj,
     triples !! i = Some ti → triples !! j = Some tj →
     model.loadVertex attrib ti = Return wi →
     model.loadVertex attrib tj = Return wj →
     model.Vertex_eqb wi wj = true →
     ∃ k, model.indices b' !! i = Some k ∧ model.indices b' !! j = Some k
          ∧ 0 ≤ k < size (model.vertices b')
          ∧ (size (model.vertices b') ≤ 2 ^ 32 →
             ∃ u, model.vertices b' !! Z.to_nat k = Some u
                  ∧ model.Vertex_eqb u wi = true ∧ model.Vertex_eqb u wj = true))
  ∧ (∀ k tk wk,
       triples !! k = Some tk → model.loadVertex attrib tk = Return wk →
       model.Vertex_eqb wk wk = true →
       (∀ j tj wj, (j < k)%nat → triples !! j = Some tj →
                   model.loadVertex attrib tj = Return wj →
                   model.Vertex_eqb wj wk = false) →
       ∃ m_k b_k m_k',
         model.loadIndices attrib (take k triples) fresh_state = Return (m_k, b_k)
         ∧ model.loadIndices attrib (take (S k) triples) fresh_state
           = Return (m_k',
               {| model.vertices := model.vertices b_k ++ [wk];
                  model.indices :=
                    model.indices b_k ++ [uint32 (size (model.vertices b_k))] |})
         ∧ model.indices b' !! k = Some (uint32 (size (model.vertices b_k)))
         ∧ model.vertices b' !! length (model.vertices b_k) = Some wk).
Proof.
  intros (ws & m & Hws & Hfold)%loadModel_vertices attrib triples.
  fold attrib triples in Hws.
  assert (∀ i ti wi, triples !! i = Some ti →
            model.loadVertex attrib ti = Return wi → ws !! i = Some wi) as Hlook.
  { intros i ti wi Hi Hw.
    destruct (Forall2_lookup_l _ _ _ _ _ Hws Hi) as (w & Hwi & Hw').
    congruence. }
  split.
  - intros i j ti tj wi wj Hi Hj Hwi Hwj Heq.
    apply (Hlook _ _ _ Hi) in Hwi. apply (Hlook _ _ _ Hj) in Hwj.
    destruct (fold_index ws i wi Hwi (Vertex_eqb_refl_l _ _ Heq)) as (p & Hp & Hip).
    destruct (fold_index ws j wj Hwj (Vertex_eqb_refl_r _ _ Heq)) as (q & Hq & Hjq).
    rewrite Hfold in Hp, Hip, Hq, Hjq. simpl in Hp, Hip, Hq, Hjq.
    rewrite (position_of_congr _ _ _ Heq), Hq in Hp. injection Hp as ->.
    exists (uint32 (Z.of_nat p)). split; [done|]. split; [done|].
    pose proof (fold_invariants ws) as [_ [_ Hr]]. rewrite Hfold in Hr.
    simpl in Hr. rewrite Forall_lookup in Hr. split; [by eapply Hr|].
    intros Hsize. apply position_of_Some in Hq as (u & Hu & Huj).
    apply lookup_lt_Some in Hu as Hlt. unfold size in Hsize.
    rewrite uint32_small by lia. rewrite Nat2Z.id.
    exists u. split; [done|]. split; [|done].
    eauto using Vertex_eqb_trans, Vertex_eqb_sym.
  - intros k tk wk Hk Hwk Hself Hnew.
    pose proof (Hlook _ _ _ Hk Hwk) as Hwsk.
    destruct (foldl model.emitVertex fresh_state (take k ws)) as [m_k b_k] eqn:Hk_state.
    assert (model.loadIndices attrib (take k triples) fresh_state
            = Return (m_k, b_k)) as Hload_k.
    { rewrite loadIndices_fold,
        (Forall2_loadVertices _ _ _ (Forall2_take _ _ _ k Hws)).
      simpl. by rewrite Hk_state. }
    assert (model.umap_find m_k wk = None) as Hfind.
    { pose proof (fold_invariants (take k ws)) as [Ht _].
      rewrite Hk_state in Ht. simpl in Ht. rewrite (Ht wk Hself).
      assert (position_of (model.vertices b_k) wk = None) as ->; [|done].
      apply position_of_None, Forall_forall. intros u Hu.
      assert (u ∈ take k ws) as Hin.
      { apply fold_vertices_from_input. by rewrite Hk_state. }
      apply list_elem_of_lookup in Hin as [j Hj].
      apply lookup_take_Some in Hj as [Hj Hjk].
      destruct (Forall2_lookup_r _ _ _ _ _ Hws Hj) as (tj & Htj & Hwj).
      by apply (Hnew j tj u). }
    assert (foldl model.emitVertex fresh_state (take (S k) ws)
            = ((wk, uint32 (size (model.vertices b_k))) :: m_k,
               {| model.vertices := model.vertices b_k ++ [wk];
                  model.indices :=
                    model.indices b_k ++ [uint32 (size (model.vertices b_k))] |}))
      as HSk_state.
    { rewrite (take_S_r _ _ _ Hwsk), foldl_snoc, Hk_state, emitVertex_eq.
      cbv zeta. by rewrite Hfind, Hself. }
    exists m_k, b_k, ((wk, uint32 (size (model.vertices b_k))) :: m_k).
    split; [done|]. split.
    { rewrite loadIndices_fold,
        (Forall2_loadVertices _ _ _ (Forall2_take _ _ _ (S k) Hws)).
      simpl. by rewrite HSk_state. }
    pose proof (fold_grows (take (S k) ws) (drop (S k) ws)) as [Hv Hx].
    rewrite take_drop, Hfold, HSk_state in Hv, Hx. simpl in Hv, Hx.
    pose proof (fold_indices_length (take k ws)) as Hlen.
    rewrite Hk_state in Hlen. simpl in Hlen.
    rewrite length_take in Hlen. apply lookup_lt_Some in Hwsk as Hlt.
    split.
    + eapply prefix_lookup_Some; [|exact Hx].
      replace k with (length (model.indices b_k)) at 1 by lia.
      by apply list_lookup_middle.
    + eapply prefix_lookup_Some; [|exact Hv]. by apply list_lookup_middle.
Qed.

End LoadModel.

Lemma loadModel_indices_in_range_witness :
  model.loadModel example_files "quad.obj" used_builder
  = ({| model.vertices := model.vertices (model.loadModel example_files "quad.obj" used_builder).1;
        model.indices := [0; 1; 2; 0; 2; 3] |}, Return ())
  ∧ Forall (λ i, 0 ≤ i < 4) [0; 1; 2; 0; 2; 3].
Proof.
  split; [reflexivity|].
  exact (loadModel_indices_in_range example_files "quad.obj" used_builder _ eq_refl).
Defined.

Lemma loadModel_color_witness :
  ∃ w, model.loadVertex quad_attrib (triple 1 (-1) (-1)) = Return w
    ∧ (5 < size (tinyobj.colors quad_attrib) →
         three_at (tinyobj.colors quad_attrib) 3 (model.color w))
    ∧ (size (tinyobj.colors quad_attrib) ≤ 5 → model.color w = Vec3 f1 f1 f1).
Proof.
  eapply (loadModel_color example_files "quad.obj" used_builder _ (triple 1 (-1) (-1))).
  - reflexivity.
  - apply list_elem_of_lookup. exists 1%nat. reflexivity.
  - simpl. lia.
Defined.

Lemma loadModel_parse_failure_witness :
  tinyobj.ok (example_files "missing.obj") = false
  ∧ model.loadModel example_files "missing.obj" used_builder
    = (used_builder, Throw "Cannot open file").
Proof.
  split; [reflexivity|].
  apply (loadModel_parse_failure example_files "missing.obj" used_builder).
  reflexivity.
Defined.

Lemma loadModel_deduplicates_witness :
  (∃ k, [0; 1; 2; 0; 2; 3] !! 0%nat = Some k ∧ [0; 1; 2; 0; 2; 3] !! 3%nat = Some k
        ∧ 0 ≤ k < 4)
  ∧ ∃ m_k b_k,
      model.loadIndices quad_attrib (take 1 (all_indices quad_shapes)) fresh_state
      = Return (m_k, b_k)
      ∧ [0; 1; 2; 0; 2; 3] !! 1%nat = Some (uint32 (size (model.vertices b_k))).
Proof.
  destruct (loadModel_deduplicates example_files "quad.obj" used_builder _ eq_refl)
    as [Hsame Hnew].
  split.
  - destruct (Hsame 0%nat 3%nat (triple 0 (-1) (-1)) (triple 0 (-1) (-1)) _ _
                eq_refl eq_refl eq_refl eq_refl eq_refl) as (k & Hi & Hj & Hk & _).
    exists k. split; [exact Hi|]. split; [exact Hj|]. exact Hk.
  - destruct (Hnew 1%nat (triple 1 (-1) (-1)) _ eq_refl eq_refl eq_refl)
      as (m_k & b_k & _ & Hk & _ & Hidx & _).
    + intros [|j] tj wj Hj; [|lia]. intros [= <-] [= <-]. reflexivity.
    + exists m_k, b_k. split; [exact Hk|exact Hidx].
Defined.

(** C3. For a vertex with a NaN coordinate the index emitted is not its new
    position: in the mesh [nan.obj] the vertex of the second index triple is
    equal to no earlier vertex and is appended at place 1 of the vertex
    sequence, but the index emitted for it is 0. Line 195 looks the vertex
    up a second time with [uniqueVertices[vertexInstance]]; the key is not
    equal to itself, so the lookup finds no entry, inserts a fresh one and
    yields its value-initialised 0. *)
Theorem loadModel_nan_index_not_position :
  ∃ w0 w1,
    all_indices nan_shapes = [triple 0 (-1) (-1); triple 1 (-1) (-1)]
    ∧ model.loadVertex nan_attrib (triple 0 (-1) (-1)) = Return w0
    ∧ model.loadVertex nan_attrib (triple 1 (-1) (-1)) = Return w1
    ∧ model.Vertex_eqb w0 w1 = false
    ∧ model.loadModel example_files "nan.obj" empty_builder
      = ({| model.vertices := [w0; w1]; model.indices := [0; 0] |}, Return ()).
Proof. do 2 eexists. repeat split; reflexivity. Qed.

(** C1. The normal of a vertex is read from the position array
    [attrib.vertices] and not from [attrib.normals]: in the mesh [lit.obj],
    whose only point (1,2,3) has the normal (0,0,1), the vertex built for
    the triple with position index 0 and normal index 0 has the normal
    (1,2,3). *)
Theorem loadModel_normal_read_from_positions :
  three_at (tinyobj.normals lit_attrib) (3 * 0) (Vec3 f0 f0 f1)
  ∧ ∃ w, model.loadVertex lit_attrib (triple 0 0 (-1)) = Return w
      ∧ model.loadModel example_files "lit.obj" empty_builder
        = ({| model.vertices := [w]; model.indices := [0] |}, Return ())
      ∧ model.normal w = Vec3 f1 f2 f3
      ∧ model.normal w ≠ Vec3 f0 f0 f1.
Proof.
  split; [by unfold three_at|].
  eexists. repeat split; try reflexivity. discriminate.
Qed.


(** ** Properties of the model *)

Lemma size_replicate {A} (n : Z) (x : A) : 0 ≤ n → size (replicate (Z.to_nat n) x) = n.
Proof. intros. unfold size. rewrite length_replicate. apply Z2Nat.id. done. Qed.

Lemma size_nil_iff {A} (l : list A) : size l = 0 ↔ l = [].
Proof. unfold size. destruct l; simpl; split; intros; try done; lia. Qed.

Lemma createVertexBuffers_outcome vs m :
  (model.createVertexBuffers vs m).2
  = if 3 <=? uint32 (size vs) then Return ()
    else Abort "Vertex count must be at least 3".
Proof.
  unfold model.createVertexBuffers.
  by destruct (3 <=? uint32 (size vs)).
Qed.

Lemma createVertexBuffers_log vs m :
  model.device_log (model.createVertexBuffers vs m).1
  = if 3 <=? uint32 (size vs)
    then model.device_log m
         ++ model.upload (model.sizeof_Vertex * uint32 (size vs))
              model.VERTEX_BUFFER model.vertexBuffer
    else model.device_log m.
Proof.
  unfold model.createVertexBuffers.
  by destruct (3 <=? uint32 (size vs)).
Qed.

Lemma construct_outcome m0 b :
  (3 <=? uint32 (size (model.vertices b))) = false →
  model.construct m0 b = Abort "Vertex count must be at least 3".
Proof.
  intros H. unfold model.construct, model.createVertexBuffers. by rewrite H.
Qed.

(** C5 (amended). A vertex sequence of fewer than 3 vertices makes the
    assertion of [createVertexBuffers] fail: no buffer is created and the
    constructor yields no model. For every vertex sequence of at least 3 and
    fewer than 2^32 vertices the assertion passes. *)
Theorem createVertexBuffers_assertion vs m :
  (size vs < 3 →
     (model.createVertexBuffers vs m).2 = Abort "Vertex count must be at least 3"
     ∧ model.device_log (model.createVertexBuffers vs m).1 = model.device_log m
     ∧ ∀ m0 b, model.vertices b = vs →
               model.construct m0 b = Abort "Vertex count must be at least 3")
  ∧ (3 ≤ size vs < 2 ^ 32 → (model.createVertexBuffers vs m).2 = Return ()).
Proof.
  pose proof (size_nonneg vs) as Hpos. split; intros H.
  - assert ((3 <=? uint32 (size vs)) = false) as Hb.
    { rewrite uint32_small by lia. by apply Z.leb_gt. }
    rewrite createVertexBuffers_outcome, createVertexBuffers_log, Hb.
    split; [done|]. split; [done|]. intros m0 b <-. by apply construct_outcome.
  - rewrite createVertexBuffers_outcome, uint32_small by lia.
    by rewrite (proj2 (Z.leb_le _ _)) by lia.
Qed.

Lemma createVertexBuffers_assertion_witness :
  (model.createVertexBuffers [] raw_model).2 = Abort "Vertex count must be at least 3"
  ∧ (model.createVertexBuffers (model.vertices quad_builder) raw_model).2 = Return ().
Proof.
  split.
  - apply (createVertexBuffers_assertion [] raw_model). reflexivity.
  - apply (createVertexBuffers_assertion (model.vertices quad_builder) raw_model).
    assert (size (model.vertices quad_builder) = 4) as -> by reflexivity. lia.
Defined.

(** C5, as stated, fails on a vertex sequence of 2^32 vertices: its length
    is at least 3, but the count narrowed to 32 bits is 0 and the assertion
    fails. *)
Lemma createVertexBuffers_assertion_counterexample :
  3 ≤ size huge_vertices
  ∧ (model.createVertexBuffers huge_vertices raw_model).2
    = Abort "Vertex count must be at least 3".
Proof.
  assert (size huge_vertices = 2 ^ 32) as Hsize.
  { unfold huge_vertices. by rewrite size_replicate. }
  split.
  - rewrite Hsize. done.
  - rewrite createVertexBuffers_outcome, Hsize. reflexivity.
Qed.

Lemma createIndexBuffer_flag_eq ixs m :
  model.hasIndexBuffer (model.createIndexBuffer ixs m).1 = (0 <? uint32 (size ixs)).
Proof.
  unfold model.createIndexBuffer. by destruct (0 <? uint32 (size ixs)).
Qed.

(** C6 (amended). [createIndexBuffer] returns, keeps the vertex count and
    records the length narrowed to 32 bits as index count; the flag
    [hasIndexBuffer] is set iff that count is not 0, so for an index sequence
    of fewer than 2^32 elements iff the sequence is not empty; when the flag
    is not set no buffer is created. [draw] branches on the flag: one indexed
    draw of [indexCount] indices, one instance, offsets 0, or else one draw
    of [vertexCount] vertices, one instance. *)
Theorem createIndexBuffer_draw ixs m :
  let m' := (model.createIndexBuffer ixs m).1 in
  (model.createIndexBuffer ixs m).2 = Return ()
  ∧ model.indexCount m' = uint32 (size ixs)
  ∧ model.vertexCount m' = model.vertexCount m
  ∧ (model.hasIndexBuffer m' = true ↔ uint32 (size ixs) ≠ 0)
  ∧ (size ixs < 2 ^ 32 → (model.hasIndexBuffer m' = true ↔ ixs ≠ []))
  ∧ (model.hasIndexBuffer m' = false → model.device_log m' = model.device_log m)
  ∧ ∀ m'' commandBuffer,
      (model.hasIndexBuffer m'' = true →
         model.draw m'' commandBuffer
         = commandBuffer ++ [model.vkCmdDrawIndexed (model.indexCount m'') 1 0 0 0])
      ∧ (model.hasIndexBuffer m'' = false →
           model.draw m'' commandBuffer
           = commandBuffer ++ [model.vkCmdDraw (model.vertexCount m'') 1 0 0]).
Proof.
  pose proof (size_nonneg ixs) as Hpos.
  pose proof (uint32_range (size ixs)) as Hr.
  cbv zeta. rewrite createIndexBuffer_flag_eq.
  split; [|split; [|split; [|split; [|split; [|split]]]]].
  - unfold model.createIndexBuffer. by destruct (0 <? uint32 (size ixs)).
  - unfold model.createIndexBuffer. by destruct (0 <? uint32 (size ixs)).
  - unfold model.createIndexBuffer. by destruct (0 <? uint32 (size ixs)).
  - rewrite Z.ltb_lt. lia.
  - intros Hlt. rewrite uint32_small by lia. rewrite Z.ltb_lt, <- size_nil_iff. lia.
  - unfold model.createIndexBuffer. by destruct (0 <? uint32 (size ixs)).
  - intros m'' commandBuffer. unfold model.draw. split; intros ->; done.
Qed.

Lemma createIndexBuffer_draw_witness :
  (model.hasIndexBuffer (model.createIndexBuffer [0; 1; 2] raw_model).1 = true
   ↔ [0; 1; 2] ≠ [])
  ∧ model.device_log (model.createIndexBuffer [] raw_model).1 = []
  ∧ model.draw (model.createIndexBuffer [0; 1; 2] raw_model).1 []
    = [model.vkCmdDrawIndexed 3 1 0 0 0].
Proof.
  split; [|split].
  - apply (createIndexBuffer_draw [0; 1; 2] raw_model). reflexivity.
  - apply (createIndexBuffer_draw [] raw_model). reflexivity.
  - apply (createIndexBuffer_draw [0; 1; 2] raw_model). reflexivity.
Defined.

(** C6, as stated, fails on an index sequence of 2^32 indices: it is not
    empty, but the count narrowed to 32 bits is 0, the flag is not set and
    no buffer is created. *)
Lemma createIndexBuffer_draw_counterexample :
  huge_indices ≠ []
  ∧ model.hasIndexBuffer (model.createIndexBuffer huge_indices raw_model).1 = false.
Proof.
  assert (size huge_indices = 2 ^ 32) as Hsize.
  { unfold huge_indices. by rewrite size_replicate. }
  split.
  - intros Hnil%size_nil_iff. rewrite Hsize in Hnil. done.
  - rewrite createIndexBuffer_flag_eq, Hsize. reflexivity.
Qed.


(** ** Properties of the renderer *)

Ltac run_M :=
  repeat progress
    unfold mbind, mret, renderer.M_bind, renderer.M_ret, renderer.this,
      renderer.call, renderer.modify, renderer.throw, renderer.assert,
      renderer.stop;
  simpl.

(** The loop leaves the renderer alone; it polls the degenerate extents and
    the first one that is not. *)
Lemma wait_for_extent_blocked e polls r :
  Forall (λ e, renderer.degenerate e = true) (e :: polls) →
  renderer.wait_for_extent e polls r
  = (r, concat (map (λ e', [renderer.getExtent e'; renderer.glfwWaitEvents]) polls),
     Blocked).
Proof.
  revert e. induction polls as [|e' polls IH]; intros e [He Hpolls]%Forall_cons; simpl;
    rewrite He; run_M; [done|].
  by rewrite (IH e' Hpolls).
Qed.

Lemma wait_for_extent_valid e polls pre v post r :
  e :: polls = pre ++ v :: post →
  Forall (λ e, renderer.degenerate e = true) pre →
  renderer.degenerate v = false →
  renderer.wait_for_extent e polls r
  = (r, concat (map (λ e', [renderer.getExtent e'; renderer.glfwWaitEvents])
                  (tail (pre ++ [v]))),
     Return v).
Proof.
  revert e polls. induction pre as [|d pre IH]; intros e polls Heq Hpre Hv.
  - injection Heq as -> ->. destruct post; simpl; by rewrite Hv.
  - injection Heq as -> Heq. apply Forall_cons in Hpre as [Hd Hpre].
    destruct polls as [|e' polls]; [by destruct pre|].
    simpl. rewrite Hd. run_M.
    rewrite (IH e' polls Heq Hpre Hv).
    destruct pre; simpl in *; by injection Heq as -> _.
Qed.

Lemma poll_log_cons e es :
  poll_log (e :: es)
  = renderer.getExtent e
    :: concat (map (λ e', [renderer.getExtent e'; renderer.glfwWaitEvents]) es).
Proof. done. Qed.

(** Polling only asks the window and waits. *)
Lemma poll_log_events es ev :
  ev ∈ poll_log es → (∃ e, ev = renderer.getExtent e) ∨ ev = renderer.glfwWaitEvents.
Proof.
  destruct es as [|e0 es]; [by intros ?%elem_of_nil|].
  rewrite poll_log_cons. intros [->|H]%elem_of_cons; [eauto|].
  induction es as [|e1 es IH]; simpl in H; [by apply elem_of_nil in H|].
  apply elem_of_cons in H as [->|H]; [eauto|].
  apply elem_of_cons in H as [->|H]; [eauto|]. auto.
Qed.

Lemma recreateSwapchain_blocked o r :
  Forall (λ e, renderer.degenerate e = true)
    (renderer.first_extent o :: renderer.later_extents o) →
  renderer.recreateSwapchain o r
  = (r, poll_log (renderer.first_extent o :: renderer.later_extents o), Blocked).
Proof.
  intros H. unfold renderer.recreateSwapchain. run_M.
  by rewrite (wait_for_extent_blocked _ _ _ H).
Qed.

Lemma recreateSwapchain_valid o r pre v post :
  renderer.first_extent o :: renderer.later_extents o = pre ++ v :: post →
  Forall (λ e, renderer.degenerate e = true) pre →
  renderer.degenerate v = false →
  renderer.recreateSwapchain o r
  = ((replace_swapchain o v r).1.1,
     poll_log (pre ++ [v]) ++ (replace_swapchain o v r).1.2,
     (replace_swapchain o v r).2).
Proof.
  intros Heq Hpre Hv. unfold renderer.recreateSwapchain. run_M.
  rewrite (wait_for_extent_valid _ _ _ _ _ _ Heq Hpre Hv).
  assert (poll_log (pre ++ [v])
          = renderer.getExtent (renderer.first_extent o)
            :: concat (map (λ e', [renderer.getExtent e'; renderer.glfwWaitEvents])
                         (tail (pre ++ [v])))) as ->.
  { destruct pre; simpl in *; by injection Heq as -> _. }
  unfold replace_swapchain.
  destruct (renderer.swapchainInstance r); simpl;
    [destruct (renderer.same_formats o)|]; simpl;
    by rewrite <- ?app_assoc.
Qed.

(** Either every extent is degenerate or there is a first that is not. *)
Lemma first_valid_extent (es : list renderer.VkExtent2D) :
  Forall (λ e, renderer.degenerate e = true) es
  ∨ ∃ pre v post, es = pre ++ v :: post
      ∧ Forall (λ e, renderer.degenerate e = true) pre
      ∧ renderer.degenerate v = false.
Proof.
  induction es as [|e es IH]; [by left|].
  destruct (renderer.degenerate e) eqn:He.
  - destruct IH as [IH|(pre & v & post & -> & Hpre & Hv)].
    + left. by constructor.
    + right. exists (e :: pre), v, post. split; [done|]. split; [by constructor|done].
  - right. exists [], e, es. split; [done|]. split; [constructor|done].
Qed.

(** [recreateSwapchain] changes nothing but the swapchain and begins no
    recording. *)
Lemma recreateSwapchain_frame o r r' log out :
  renderer.recreateSwapchain o r = (r', log, out) →
  renderer.commandBuffers r' = renderer.commandBuffers r
  ∧ renderer.currentImageIndex r' = renderer.currentImageIndex r
  ∧ renderer.currentFrameIndex r' = renderer.currentFrameIndex r
  ∧ renderer.isFrameStarted r' = renderer.isFrameStarted r
  ∧ (∀ cb res, renderer.vkBeginCommandBuffer cb res ∉ log).
Proof.
  destruct (first_valid_extent (renderer.first_extent o :: renderer.later_extents o))
    as [Hall|(pre & v & post & Heq & Hpre & Hv)].
  - rewrite (recreateSwapchain_blocked _ _ Hall). intros [= <- <- <-].
    repeat split; try done.
    intros cb res H.
    destruct (poll_log_events (renderer.first_extent o :: renderer.later_extents o)
                _ H) as [[e ?]|?]; done.
  - rewrite (recreateSwapchain_valid _ _ _ _ _ Heq Hpre Hv). intros [= <- <- <-].
    repeat split; try done.
    intros cb res [H|H]%elem_of_app.
    { destruct (poll_log_events _ _ H) as [[e ?]|?]; done. }
    unfold replace_swapchain in H. simpl in H.
    apply elem_of_cons in H as [?|H]; [done|].
    apply elem_of_cons in H as [?|H]; [done|].
    destruct (renderer.swapchainInstance r); [|by apply elem_of_nil in H].
    apply elem_of_cons in H as [?|H]; [done|]. by apply elem_of_nil in H.
Qed.

(** C9. Whatever extents the window reports: while every extent seen so far
    is degenerate the call only polls and waits, and if no other extent
    follows it stays blocked without constructing a swapchain; once an
    extent that is not degenerate is seen, the call waits for the device to
    be idle and then constructs the swapchain for that extent, the extent
    seen last. *)
Theorem recreateSwapchain_waits o r :
  let es := renderer.first_extent o :: renderer.later_extents o in
  (Forall (λ e, renderer.degenerate e = true) es →
     renderer.recreateSwapchain o r = (r, poll_log es, Blocked)
     ∧ ∀ e previous, renderer.make_swapchain e previous ∉ poll_log es)
  ∧ (∀ pre v post,
       es = pre ++ v :: post →
       Forall (λ e, renderer.degenerate e = true) pre →
       renderer.degenerate v = false →
       ∃ checks out,
         renderer.recreateSwapchain o r
         = (renderer.set_swapchainInstance (Some {| renderer.windowExtent := v |}) r,
            poll_log (pre ++ [v])
            ++ [renderer.vkDeviceWaitIdle;
                renderer.make_swapchain v (renderer.swapchainInstance r)]
            ++ checks,
            out)
         ∧ out ≠ Blocked
         ∧ (∀ e previous, renderer.make_swapchain e previous ∉ poll_log (pre ++ [v]))
         ∧ (∀ e previous, renderer.make_swapchain e previous ∉ checks)).
Proof.
  intros es.
  assert (∀ es' e previous, renderer.make_swapchain e previous ∉ poll_log es') as Hpoll.
  { intros es' e previous [[e' ?]|?]%poll_log_events; done. }
  split.
  - intros Hall. split; [by apply recreateSwapchain_blocked | apply Hpoll].
  - intros pre v post Heq Hpre Hv.
    rewrite (recreateSwapchain_valid _ r _ _ _ Heq Hpre Hv).
    unfold replace_swapchain. simpl.
    eexists _, _. split; [reflexivity|]. split; [|split; [apply Hpoll|]].
    + destruct (renderer.swapchainInstance r); [|done].
      by destruct (renderer.same_formats o).
    + intros e previous H.
      destruct (renderer.swapchainInstance r); [|by apply elem_of_nil in H].
      apply elem_of_cons in H as [?|H]; [done|]. by apply elem_of_nil in H.
Qed.

Lemma recreateSwapchain_waits_witness :
  (renderer.recreateSwapchain hidden_window idle_renderer).2 = Blocked
  ∧ ∃ checks out,
      renderer.recreateSwapchain minimised_window idle_renderer
      = (renderer.set_swapchainInstance
           (Some {| renderer.windowExtent := extent 800 600 |}) idle_renderer,
         poll_log [extent 0 0; extent 0 0; extent 800 600]
         ++ [renderer.vkDeviceWaitIdle;
             renderer.make_swapchain (extent 800 600)
               (renderer.swapchainInstance idle_renderer)]
         ++ checks,
         out)
      ∧ out ≠ Blocked.
Proof.
  split.
  - destruct (proj1 (recreateSwapchain_waits hidden_window idle_renderer)) as [-> _];
      [|reflexivity].
    repeat constructor.
  - destruct (proj2 (recreateSwapchain_waits minimised_window idle_renderer)
                [extent 0 0; extent 0 0] (extent 800 600) [])
      as (checks & out & Heq & Hout & _).
    + reflexivity.
    + repeat constructor.
    + reflexivity.
    + exists checks, out. split; [exact Heq | exact Hout].
Defined.

(** C7 (amended). [beginFrame] in a frame already started fails its
    assertion. Otherwise, with a swapchain in place: on out-of-date it runs
    [recreateSwapchain], begins no recording, leaves [isFrameStarted] unset
    and, when the recreation returns, returns the null handle (when the
    recreation throws or stays blocked, so does the call); on any status
    other than out-of-date, success and suboptimal it throws; on success or
    suboptimal it sets [isFrameStarted], begins recording on the command
    buffer of the current frame slot and returns that buffer when
    [vkBeginCommandBuffer] succeeds, and throws when it does not. *)
Theorem beginFrame_cases o r :
  let result := renderer.acquire_result o in
  let r1 := renderer.set_currentImageIndex (renderer.acquire_imageIndex o) r in
  (renderer.isFrameStarted r = true →
     renderer.beginFrame o r
     = (r, [], Abort "Can't call beginFrame while already in progress"))
  ∧ (renderer.isFrameStarted r = false → is_Some (renderer.swapchainInstance r) →
     (result = renderer.VK_ERROR_OUT_OF_DATE_KHR →
        ∃ r' log out,
          renderer.recreateSwapchain (renderer.begin_recreate o) r1 = (r', log, out)
          ∧ renderer.beginFrame o r
            = (r', renderer.acquireNextImage result :: log,
               _ ← out; Return renderer.nullptr)
          ∧ renderer.isFrameStarted r' = false
          ∧ ∀ cb res, renderer.vkBeginCommandBuffer cb res
                      ∉ renderer.acquireNextImage result :: log)
     ∧ (result ≠ renderer.VK_ERROR_OUT_OF_DATE_KHR → result ≠ renderer.VK_SUCCESS →
        result ≠ renderer.VK_SUBOPTIMAL_KHR →
        renderer.beginFrame o r
        = (r1, [renderer.acquireNextImage result],
           Throw "failed to acquire swap chain image!"))
     ∧ (result = renderer.VK_SUCCESS ∨ result = renderer.VK_SUBOPTIMAL_KHR →
        ∀ commandBuffer,
          0 ≤ renderer.currentFrameIndex r →
          renderer.commandBuffers r !! Z.to_nat (renderer.currentFrameIndex r)
          = Some commandBuffer →
          renderer.beginFrame o r
          = (renderer.set_isFrameStarted true r1,
             [renderer.acquireNextImage result;
              renderer.vkBeginCommandBuffer commandBuffer (renderer.begin_result o)],
             if renderer.begin_result o =? renderer.VK_SUCCESS
             then Return commandBuffer
             else Throw "failed to begin recording command buffer!"))).
Proof.
  intros result r1. split.
  - intros Hs. unfold renderer.beginFrame. run_M. by rewrite Hs.
  - intros Hs [sc Hsc]. split; [|split].
    + intros Hres.
      destruct (renderer.recreateSwapchain (renderer.begin_recreate o) r1)
        as [[r' log] out] eqn:Hrec.
      exists r', log, out. split; [done|].
      destruct (recreateSwapchain_frame _ _ _ _ _ Hrec) as (_ & _ & _ & Hst & Hlog).
      split; [|split].
      * unfold renderer.beginFrame. run_M. rewrite Hs, Hsc. simpl.
        fold result. rewrite Hres. simpl. fold r1. rewrite Hrec.
        destruct out; simpl; by rewrite ?app_nil_r.
      * by rewrite Hst.
      * intros cb res [?|?]%elem_of_cons; [done|]. by eapply Hlog.
    + intros H1 H2 H3. unfold renderer.beginFrame. run_M. rewrite Hs, Hsc. simpl.
      fold result.
      rewrite (proj2 (Z.eqb_neq _ _) H1), (proj2 (Z.eqb_neq _ _) H2),
        (proj2 (Z.eqb_neq _ _) H3). done.
    + intros Hres commandBuffer Hpos Hcb.
      unfold renderer.beginFrame, renderer.getCurrentCommandBuffer. run_M.
      rewrite Hs, Hsc. simpl. fold result.
      assert ((result =? renderer.VK_ERROR_OUT_OF_DATE_KHR) = false) as ->.
      { destruct Hres as [-> | ->]; done. }
      assert (negb (result =? renderer.VK_SUCCESS)
              && negb (result =? renderer.VK_SUBOPTIMAL_KHR) = false) as ->.
      { destruct Hres as [-> | ->]; done. }
      simpl. unfold vec_at.
      rewrite (proj2 (Z.ltb_ge _ _) Hpos), Hcb. simpl.
      by destruct (renderer.begin_result o =? renderer.VK_SUCCESS).
Qed.

Lemma beginFrame_cases_witness :
  renderer.beginFrame recording_fails busy_renderer
  = (busy_renderer, [], Abort "Can't call beginFrame while already in progress")
  ∧ (renderer.beginFrame
       (acquires renderer.VK_ERROR_OUT_OF_DATE_KHR minimised_window) idle_renderer).2
    = Return renderer.nullptr
  ∧ (renderer.beginFrame (acquires VK_ERROR_DEVICE_LOST steady_window) idle_renderer).2
    = Throw "failed to acquire swap chain image!"
  ∧ (renderer.beginFrame (acquires renderer.VK_SUBOPTIMAL_KHR steady_window)
       idle_renderer).2
    = Return 101.
Proof.
  split; [|split; [|split]].
  - apply (beginFrame_cases recording_fails busy_renderer). reflexivity.
  - destruct (proj1 (proj2 (beginFrame_cases
        (acquires renderer.VK_ERROR_OUT_OF_DATE_KHR minimised_window) idle_renderer)
        eq_refl (ex_intro _ _ eq_refl)) eq_refl)
      as (r' & log & out & Hrec & -> & _).
    injection Hrec as _ _ <-. reflexivity.
  - rewrite (proj1 (proj2 (proj2 (beginFrame_cases
        (acquires VK_ERROR_DEVICE_LOST steady_window) idle_renderer)
        eq_refl (ex_intro _ _ eq_refl)))); [reflexivity|done..].
  - rewrite (proj2 (proj2 (proj2 (beginFrame_cases
        (acquires renderer.VK_SUBOPTIMAL_KHR steady_window) idle_renderer)
        eq_refl (ex_intro _ _ eq_refl))) (or_intror eq_refl) 101);
      [reflexivity|done|reflexivity].
Defined.

(** C7, as stated, fails in two places. With the image acquired
    successfully, a failing [vkBeginCommandBuffer] makes the call throw
    instead of returning the buffer. On out-of-date, a recreation that finds
    the formats changed makes the call throw instead of returning the null
    handle. *)
Lemma beginFrame_cases_counterexample :
  renderer.acquire_result recording_fails = renderer.VK_SUCCESS
  ∧ renderer.beginFrame recording_fails idle_renderer
    = (renderer.set_isFrameStarted true (renderer.set_currentImageIndex 1 idle_renderer),
       [renderer.acquireNextImage renderer.VK_SUCCESS;
        renderer.vkBeginCommandBuffer 101 VK_ERROR_DEVICE_LOST],
       Throw "failed to begin recording command buffer!")
  ∧ (renderer.beginFrame
       (acquires renderer.VK_ERROR_OUT_OF_DATE_KHR reformatted_window) idle_renderer).2
    = Throw "swap chain image or depth format has changed!".
Proof. repeat split. Qed.

(** ** The frame slot *)

Section FrameSlot.

Variable MAX_FRAMES_IN_FLIGHT : Z.
Hypothesis MAX_positive : 0 < MAX_FRAMES_IN_FLIGHT ≤ INT_MAX.

Lemma next_frame_index_Return i :
  0 ≤ i < MAX_FRAMES_IN_FLIGHT →
  renderer.next_frame_index MAX_FRAMES_IN_FLIGHT i
  = Return ((i + 1) mod MAX_FRAMES_IN_FLIGHT).
Proof.
  intros Hi. unfold renderer.next_frame_index, int_expr, INT_MIN, INT_MAX in *.
  assert (0 ≤ (i + 1) mod MAX_FRAMES_IN_FLIGHT < MAX_FRAMES_IN_FLIGHT) as Hm
    by (apply Z.mod_pos_bound; lia).
  rewrite (proj2 (andb_true_iff _ _)) by (split; apply Z.leb_le; lia). simpl.
  rewrite (proj2 (Z.eqb_neq _ _)) by lia.
  rewrite Z.rem_mod_nonneg by lia.
  by rewrite (proj2 (andb_true_iff _ _)) by (split; apply Z.leb_le; lia).
Qed.

Lemma beginFrame_frame_index o r r' log out :
  renderer.beginFrame o r = (r', log, out) →
  renderer.currentFrameIndex r' = renderer.currentFrameIndex r.
Proof.
  unfold renderer.beginFrame, renderer.getCurrentCommandBuffer. run_M.
  intros H. repeat case_match; simplify_eq; simpl; try done.
  all: match goal with
       | H : renderer.recreateSwapchain _ _ = _ |- _ =>
           apply recreateSwapchain_frame in H as (_ & _ & -> & _)
       end; done.
Qed.

End FrameSlot.

(** [endFrame] returns to no caller: where it neither fails its assertion,
    throws nor waits for the window, it flows off its end. *)
Lemma endFrame_not_returned MAX_FRAMES_IN_FLIGHT o r :
  renderer.returned (renderer.endFrame MAX_FRAMES_IN_FLIGHT o r).2 = false.
Proof.
  unfold renderer.endFrame, renderer.getCurrentCommandBuffer. run_M.
  repeat case_match; simplify_eq; done.
Qed.

(** C8. [endFrame] is declared to return a [VkCommandBuffer] and holds no
    [return] statement, so no call of it completes: a call that neither
    fails its assertion, throws nor waits has cleared [isFrameStarted] and
    advanced the frame slot (lines 110-111) and then flows off the end of
    the function, which is undefined behaviour. Inside a frame on slot 0 of
    2, with a recording and a submission that succeed and a window that was
    not resized, the object is left with slot 1 and no frame in progress,
    and the call is undefined. *)
Theorem endFrame_flows_off_the_end :
  (∀ MAX_FRAMES_IN_FLIGHT o r,
     renderer.returned (renderer.endFrame MAX_FRAMES_IN_FLIGHT o r).2 = false)
  ∧ renderer.endFrame 2 (submits renderer.VK_SUCCESS false steady_window) busy_renderer
    = (next_slot 2 busy_renderer,
       [renderer.vkEndCommandBuffer 101 renderer.VK_SUCCESS;
        renderer.submitCommandBuffers 101 0 renderer.VK_SUCCESS;
        renderer.wasWindowResized false],
       Undefined)
  ∧ renderer.currentFrameIndex (next_slot 2 busy_renderer) = (0 + 1) mod 2
  ∧ renderer.isFrameStarted (next_slot 2 busy_renderer) = false.
Proof.
  split; [exact endFrame_not_returned|]. repeat split.
Qed.


(** ** More on [Builder::loadModel] *)

Lemma vec_at_in_range {A} (v : list A) i :
  0 ≤ i < size v → ∃ x, vec_at v i = Return x ∧ v !! Z.to_nat i = Some x.
Proof.
  intros [Hi Hlt]. unfold vec_at. rewrite (proj2 (Z.ltb_ge _ _) Hi).
  destruct (v !! Z.to_nat i) as [x|] eqn:Hx; [eauto|].
  apply lookup_ge_None in Hx. unfold size in Hlt. lia.
Qed.

Lemma vec_at_out_of_range {A} (v : list A) i : size v ≤ i → vec_at v i = Undefined.
Proof.
  intros Hi. unfold vec_at. destruct (i <? 0); [done|].
  assert (v !! Z.to_nat i = None) as ->; [|done].
  apply lookup_ge_None. unfold size in Hi. lia.
Qed.

Lemma int_mul_add_in_range a i k :
  0 ≤ a → 0 ≤ i → 0 ≤ k → a * i + k ≤ INT_MAX → int_mul_add a i k = Return (a * i + k).
Proof.
  intros Ha Hi Hk Hmax. unfold int_mul_add, int_expr, INT_MIN, INT_MAX in *.
  assert (0 ≤ a * i) by lia.
  rewrite (proj2 (andb_true_iff _ _)) by (split; apply Z.leb_le; lia). simpl.
  by rewrite (proj2 (andb_true_iff _ _)) by (split; apply Z.leb_le; lia).
Qed.

(** A read [a[c*i + k]]: it returns the element when the place exists and
    is undefined otherwise. *)
Lemma read_cases c (a : list float) i k :
  0 ≤ c → 0 ≤ i → 0 ≤ k →
  (c * i + k ≤ INT_MAX ∧ c * i + k < size a →
     ∃ x, int_mul_add c i k ≫= vec_at a = Return x)
  ∧ (¬ (c * i + k ≤ INT_MAX ∧ c * i + k < size a) →
       int_mul_add c i k ≫= vec_at a = Undefined).
Proof.
  intros Hc Hi Hk. split.
  - intros [Hmax Hlt]. rewrite int_mul_add_in_range by done. simpl.
    destruct (vec_at_in_range a (c * i + k)) as (x & -> & _); [lia|eauto].
  - intros Hno. destruct (Z.le_gt_cases (c * i + k) INT_MAX) as [Hmax|Hmax].
    + rewrite int_mul_add_in_range by done. simpl.
      apply vec_at_out_of_range. lia.
    + unfold int_mul_add, int_expr, INT_MIN, INT_MAX in *.
      destruct ((- 2 ^ 31 <=? c * i) && (c * i <=? 2 ^ 31 - 1)) eqn:Hb; [|done].
      simpl. rewrite (proj2 (andb_false_iff _ _)); [done|].
      right. apply Z.leb_gt. lia.
Qed.

Lemma read_dichotomy c (a : list float) i k :
  0 ≤ c → 0 ≤ i → 0 ≤ k →
  (∃ x, int_mul_add c i k ≫= vec_at a = Return x)
  ∨ int_mul_add c i k ≫= vec_at a = Undefined.
Proof.
  intros Hc Hi Hk. destruct (read_cases c a i k Hc Hi Hk) as [Hin Hout].
  destruct (Z.le_gt_cases (c * i + k) INT_MAX);
    destruct (Z.lt_ge_cases (c * i + k) (size a));
    (left; apply Hin; lia) || (right; apply Hout; lia).
Qed.

Lemma read3_cases (a : list float) i :
  0 ≤ i →
  (3 * i + 2 ≤ INT_MAX ∧ 3 * i + 2 < size a →
     ∃ x y z, int_mul_add 3 i 0 ≫= vec_at a = Return x
              ∧ int_mul_add 3 i 1 ≫= vec_at a = Return y
              ∧ int_mul_add 3 i 2 ≫= vec_at a = Return z)
  ∧ (¬ (3 * i + 2 ≤ INT_MAX ∧ 3 * i + 2 < size a) →
       (x ← int_mul_add 3 i 0 ≫= vec_at a;
        y ← int_mul_add 3 i 1 ≫= vec_at a;
        int_mul_add 3 i 2 ≫= vec_at a) = Undefined).
Proof.
  intros Hi.
  destruct (read_cases 3 a i 0) as [H0 _]; [lia..|].
  destruct (read_cases 3 a i 1) as [H1 _]; [lia..|].
  destruct (read_cases 3 a i 2) as [H2 H2']; [lia..|].
  split.
  - intros Hb. destruct H0 as [x ?]; [lia|]. destruct H1 as [y ?]; [lia|].
    destruct H2 as [z ?]; [lia|]. eauto 10.
  - intros Hno. rewrite (H2' Hno).
    destruct (read_dichotomy 3 a i 0) as [[x ->]| ->]; [lia..| |done]. simpl.
    destruct (read_dichotomy 3 a i 1) as [[y ->]| ->]; [lia..| |done]. done.
Qed.

Lemma set_position_color_cases attrib index v :
  ((0 ≤ tinyobj.vertex_index index →
      3 * tinyobj.vertex_index index + 2 ≤ INT_MAX
      ∧ 3 * tinyobj.vertex_index index + 2 < size (tinyobj.vertices attrib)) →
   ∃ v', model.set_position_color attrib index v = Return v')
  ∧ (¬ (0 ≤ tinyobj.vertex_index index →
        3 * tinyobj.vertex_index index + 2 ≤ INT_MAX
        ∧ 3 * tinyobj.vertex_index index + 2 < size (tinyobj.vertices attrib)) →
     model.set_position_color attrib index v = Undefined).
Proof.
  unfold model.set_position_color.
  destruct (Z.leb_spec 0 (tinyobj.vertex_index index)) as [Hp|Hp].
  2:{ split; [eauto|]. intros Hno. exfalso. apply Hno. lia. }
  destruct (read3_cases (tinyobj.vertices attrib) _ Hp) as [Hin Hout]. split.
  - intros Hb. destruct (Hin (Hb Hp)) as (x & y & z & -> & -> & ->). simpl.
    destruct (Hb Hp) as [Hmax Hlt].
    rewrite int_mul_add_in_range by lia. simpl.
    unfold to_size_t. rewrite Z.mod_small by (unfold INT_MAX in Hmax; lia).
    destruct (Z.ltb_spec (3 * tinyobj.vertex_index index + 2)
                (size (tinyobj.colors attrib))) as [Hc|Hc]; simpl; [|eauto].
    destruct (vec_at_in_range (tinyobj.colors attrib)
                (3 * tinyobj.vertex_index index + 2 - 2)) as (cr & -> & _); [lia|].
    destruct (vec_at_in_range (tinyobj.colors attrib)
                (3 * tinyobj.vertex_index index + 2 - 1)) as (cg & -> & _); [lia|].
    destruct (vec_at_in_range (tinyobj.colors attrib)
                (3 * tinyobj.vertex_index index + 2 - 0)) as (cb & -> & _); [lia|].
    simpl. eauto.
  - intros Hno. assert (¬ (3 * tinyobj.vertex_index index + 2 ≤ INT_MAX
        ∧ 3 * tinyobj.vertex_index index + 2 < size (tinyobj.vertices attrib))) as Hno'
      by (intros ?; apply Hno; done).
    specialize (Hout Hno').
    destruct (int_mul_add 3 (tinyobj.vertex_index index) 0
              ≫= vec_at (tinyobj.vertices attrib)); simpl in *; try done.
    destruct (int_mul_add 3 (tinyobj.vertex_index index) 1
              ≫= vec_at (tinyobj.vertices attrib)); simpl in *; try done.
    by rewrite Hout.
Qed.

Lemma set_normal_cases attrib index v :
  ((0 ≤ tinyobj.normal_index index →
      3 * tinyobj.normal_index index + 2 ≤ INT_MAX
      ∧ 3 * tinyobj.normal_index index + 2 < size (tinyobj.vertices attrib)) →
   ∃ v', model.set_normal attrib index v = Return v')
  ∧ (¬ (0 ≤ tinyobj.normal_index index →
        3 * tinyobj.normal_index index + 2 ≤ INT_MAX
        ∧ 3 * tinyobj.normal_index index + 2 < size (tinyobj.vertices attrib)) →
     model.set_normal attrib index v = Undefined).
Proof.
  unfold model.set_normal.
  destruct (Z.leb_spec 0 (tinyobj.normal_index index)) as [Hp|Hp].
  2:{ split; [eauto|]. intros Hno. exfalso. apply Hno. lia. }
  destruct (read3_cases (tinyobj.vertices attrib) _ Hp) as [Hin Hout]. split.
  - intros Hb. destruct (Hin (Hb Hp)) as (x & y & z & -> & -> & ->). simpl. eauto.
  - intros Hno. assert (¬ (3 * tinyobj.normal_index index + 2 ≤ INT_MAX
        ∧ 3 * tinyobj.normal_index index + 2 < size (tinyobj.vertices attrib))) as Hno'
      by (intros ?; apply Hno; done).
    specialize (Hout Hno').
    destruct (int_mul_add 3 (tinyobj.normal_index index) 0
              ≫= vec_at (tinyobj.vertices attrib)); simpl in *; try done.
    destruct (int_mul_add 3 (tinyobj.normal_index index) 1
              ≫= vec_at (tinyobj.vertices attrib)); simpl in *; try done.
    by rewrite Hout.
Qed.

Lemma set_uv_cases attrib index v :
  ((0 ≤ tinyobj.texcoord_index index →
      2 * tinyobj.texcoord_index index + 1 ≤ INT_MAX
      ∧ 2 * tinyobj.texcoord_index index + 1 < size (tinyobj.texcoords attrib)) →
   ∃ v', model.set_uv attrib index v = Return v')
  ∧ (¬ (0 ≤ tinyobj.texcoord_index index →
        2 * tinyobj.texcoord_index index + 1 ≤ INT_MAX
        ∧ 2 * tinyobj.texcoord_index index + 1 < size (tinyobj.texcoords attrib)) →
     model.set_uv attrib index v = Undefined).
Proof.
  unfold model.set_uv.
  destruct (Z.leb_spec 0 (tinyobj.texcoord_index index)) as [Hp|Hp].
  2:{ split; [eauto|]. intros Hno. exfalso. apply Hno. lia. }
  destruct (read_cases 2 (tinyobj.texcoords attrib) (tinyobj.texcoord_index index) 0)
    as [H0 H0']; [lia..|].
  destruct (read_cases 2 (tinyobj.texcoords attrib) (tinyobj.texcoord_index index) 1)
    as [H1 H1']; [lia..|].
  split.
  - intros Hb. destruct (Hb Hp). destruct H0 as [x ->]; [lia|].
    destruct H1 as [y ->]; [lia|]. simpl. eauto.
  - intros Hno. assert (¬ (2 * tinyobj.texcoord_index index + 1 ≤ INT_MAX
        ∧ 2 * tinyobj.texcoord_index index + 1 < size (tinyobj.texcoords attrib))) as Hno'
      by (intros ?; apply Hno; done).
    rewrite (H1' Hno').
    destruct (read_dichotomy 2 (tinyobj.texcoords attrib)
                (tinyobj.texcoord_index index) 0) as [[x ->]| ->]; [lia..| |done].
    done.
Qed.

(** Bounds of this shape are decidable. *)
Lemma bounds_dec (i m n : Z) (c k : Z) :
  let P := 0 ≤ i → c * i + k ≤ m ∧ c * i + k < n in P ∨ ¬ P.
Proof.
  cbv zeta.
  destruct (Z.le_gt_cases 0 i); [|left; lia].
  destruct (Z.le_gt_cases (c * i + k) m); [|right; lia].
  destruct (Z.lt_ge_cases (c * i + k) n); [left|right]; lia.
Qed.

(** The vertex of a triple is built exactly when the triple is in bounds;
    otherwise a read is out of range. *)
Lemma loadVertex_cases attrib index :
  (in_bounds attrib index → ∃ w, model.loadVertex attrib index = Return w)
  ∧ (¬ in_bounds attrib index → model.loadVertex attrib index = Undefined).
Proof.
  unfold model.loadVertex, in_bounds.
  destruct (set_position_color_cases attrib index model.Vertex_default) as [Hp Hp'].
  split.
  - intros (Hb1 & Hb2 & Hb3). destruct (Hp Hb1) as [v1 ->]. simpl.
    destruct (set_normal_cases attrib index v1) as [Hn _].
    destruct (Hn Hb2) as [v2 ->]. simpl.
    destruct (set_uv_cases attrib index v2) as [Hu _]. exact (Hu Hb3).
  - intros Hno.
    destruct (bounds_dec (tinyobj.vertex_index index) INT_MAX
                (size (tinyobj.vertices attrib)) 3 2) as [Hb1|Hb1]; [|by rewrite (Hp' Hb1)].
    destruct (Hp Hb1) as [v1 ->]. simpl.
    destruct (set_normal_cases attrib index v1) as [Hn Hn'].
    destruct (bounds_dec (tinyobj.normal_index index) INT_MAX
                (size (tinyobj.vertices attrib)) 3 2) as [Hb2|Hb2]; [|by rewrite (Hn' Hb2)].
    destruct (Hn Hb2) as [v2 ->]. simpl.
    destruct (set_uv_cases attrib index v2) as [_ Hu'].
    apply Hu'. intros Hb3. apply Hno. done.
Qed.

Lemma in_bounds_dec attrib index : in_bounds attrib index ∨ ¬ in_bounds attrib index.
Proof.
  unfold in_bounds.
  destruct (bounds_dec (tinyobj.vertex_index index) INT_MAX
              (size (tinyobj.vertices attrib)) 3 2) as [H1|H1];
    destruct (bounds_dec (tinyobj.normal_index index) INT_MAX
                (size (tinyobj.vertices attrib)) 3 2) as [H2|H2];
    destruct (bounds_dec (tinyobj.texcoord_index index) INT_MAX
                (size (tinyobj.texcoords attrib)) 2 1) as [H3|H3];
    tauto.
Qed.

Lemma loadVertices_cases attrib l :
  (Forall (in_bounds attrib) l → ∃ ws, loadVertices attrib l = Return ws)
  ∧ (¬ Forall (in_bounds attrib) l → loadVertices attrib l = Undefined).
Proof.
  induction l as [|index l [IH IH']]; simpl.
  - split; [eauto|]. intros H. exfalso. apply H. constructor.
  - destruct (loadVertex_cases attrib index) as [Hin Hout]. split.
    + intros [Hi Hl]%Forall_cons. destruct (Hin Hi) as [w ->].
      destruct (IH Hl) as [ws ->]. simpl. eauto.
    + intros Hno. destruct (in_bounds_dec attrib index) as [Hi|Hi].
      * destruct (Hin Hi) as [w ->]. simpl. rewrite IH'; [done|].
        intros Hl. apply Hno. by constructor.
      * by rewrite (Hout Hi).
Qed.

Lemma fold_vertices_length ws :
  (length (model.vertices (foldl model.emitVertex fresh_state ws).2) ≤ length ws)%nat.
Proof.
  induction ws as [|v ws IH] using rev_ind; [done|].
  rewrite foldl_snoc, length_app. simpl.
  destruct (foldl model.emitVertex fresh_state ws) as [m b].
  rewrite emitVertex_eq. cbv zeta. simpl in IH.
  destruct (model.umap_find m v); [|destruct (model.Vertex_eqb v v)]; simpl;
    rewrite ?length_app; simpl; lia.
Qed.

Lemma distinct_vertices_snoc vs v :
  distinct_vertices vs → Forall (λ u, model.Vertex_eqb u v = false) vs →
  distinct_vertices (vs ++ [v]).
Proof.
  intros Hd Hv p q u1 u2 Hpq Hp Hq.
  rewrite Forall_lookup in Hv.
  apply lookup_snoc_Some in Hp as [[Hp1 Hp]|[-> <-]];
    apply lookup_snoc_Some in Hq as [[Hq1 Hq]|[-> <-]].
  - by eapply Hd.
  - by eapply Hv.
  - destruct (model.Vertex_eqb v u2) eqn:E; [|done].
    apply Vertex_eqb_sym in E. by rewrite (Hv _ _ Hq) in E.
  - done.
Qed.

Lemma fold_distinct ws :
  distinct_vertices (model.vertices (foldl model.emitVertex fresh_state ws).2).
Proof.
  induction ws as [|v ws IH] using rev_ind.
  - intros p q u1 u2 _ Hp. done.
  - rewrite foldl_snoc. pose proof (fold_invariants ws) as [Ht _].
    destruct (foldl model.emitVertex fresh_state ws) as [m b]. simpl in IH, Ht.
    rewrite emitVertex_eq. cbv zeta.
    destruct (model.umap_find m v) eqn:Hfind; [done|].
    assert (Forall (λ u, model.Vertex_eqb u v = false) (model.vertices b)) as Hnew.
    { destruct (model.Vertex_eqb v v) eqn:Hv.
      - apply position_of_None. specialize (Ht v Hv). rewrite Hfind in Ht.
        by destruct (position_of (model.vertices b) v).
      - apply Forall_forall. intros u _.
        destruct (model.Vertex_eqb u v) eqn:E; [|done].
        apply Vertex_eqb_refl_r in E. congruence. }
    destruct (model.Vertex_eqb v v); simpl; by apply distinct_vertices_snoc.
Qed.

Section LoadModelMore.

Variable LoadObj : string → tinyobj.LoadObj_result.

(** X1. A file that parses is loaded exactly when every index triple is in
    bounds: then the call returns; otherwise a read of an attribute array is
    out of range and the behaviour is undefined. The bound of a normal
    index is the length of the position array. *)
Theorem loadModel_defined filepath b :
  tinyobj.ok (LoadObj filepath) = true →
  let attrib := tinyobj.attrib (LoadObj filepath) in
  let triples := all_indices (tinyobj.shapes (LoadObj filepath)) in
  (Forall (in_bounds attrib) triples →
     ∃ b', model.loadModel LoadObj filepath b = (b', Return ()))
  ∧ (¬ Forall (in_bounds attrib) triples →
       (model.loadModel LoadObj filepath b).2 = Undefined).
Proof.
  intros Hok attrib triples. unfold model.loadModel. rewrite Hok. simpl.
  rewrite loadShapes_flat, loadIndices_fold. fold attrib triples.
  destruct (loadVertices_cases attrib triples) as [Hin Hout]. split.
  - intros H. destruct (Hin H) as [ws ->]. simpl.
    destruct (foldl model.emitVertex _ ws) as [m b']. eauto.
  - intros H. by rewrite (Hout H).
Qed.

Lemma loadModel_lengths filepath b b' :
  model.loadModel LoadObj filepath b = (b', Return ()) →
  length (model.indices b') = length (all_indices (tinyobj.shapes (LoadObj filepath)))
  ∧ (length (model.vertices b') ≤ length (model.indices b'))%nat.
Proof.
  intros (_ & ws & m & Hws & Hfold)%loadModel_Return.
  apply loadVertices_Return, Forall2_length in Hws.
  pose proof (fold_indices_length ws) as Hi.
  pose proof (fold_vertices_length ws) as Hv.
  rewrite Hfold in Hi, Hv. simpl in Hi, Hv. lia.
Qed.

(** X2. A load that returns emits one index per index triple, and at most
    as many vertices as there are triples. *)
Theorem loadModel_counts filepath b b' :
  model.loadModel LoadObj filepath b = (b', Return ()) →
  length (model.indices b') = length (all_indices (tinyobj.shapes (LoadObj filepath)))
  ∧ (length (model.vertices b') ≤ length (model.indices b'))%nat.
Proof. apply loadModel_lengths. Qed.

(** X3. After a load that returns, the vertex sequence holds no vertex
    twice: the vertices at two different places never compare equal. *)
Theorem loadModel_no_duplicates filepath b b' p q u v :
  model.loadModel LoadObj filepath b = (b', Return ()) →
  p ≠ q →
  model.vertices b' !! p = Some u → model.vertices b' !! q = Some v →
  model.Vertex_eqb u v = false.
Proof.
  intros (_ & ws & m & _ & Hfold)%loadModel_Return.
  pose proof (fold_distinct ws) as Hd. rewrite Hfold in Hd. apply Hd.
Qed.

(** X4. Every vertex of the vertex sequence is the vertex built for one of
    the index triples. *)
Theorem loadModel_vertices_from_triples filepath b b' u :
  model.loadModel LoadObj filepath b = (b', Return ()) →
  u ∈ model.vertices b' →
  ∃ index, index ∈ all_indices (tinyobj.shapes (LoadObj filepath))
           ∧ model.loadVertex (tinyobj.attrib (LoadObj filepath)) index = Return u.
Proof.
  intros (_ & ws & m & Hws & Hfold)%loadModel_Return Hu.
  apply loadVertices_Return in Hws.
  assert (u ∈ ws) as Hin.
  { apply fold_vertices_from_input. by rewrite Hfold. }
  apply list_elem_of_lookup in Hin as [i Hi].
  destruct (Forall2_lookup_r _ _ _ _ _ Hws Hi) as (index & Hidx & Hload).
  exists index. split; [|done]. by eapply list_elem_of_lookup_2.
Qed.

End LoadModelMore.

(** X5. The fields of the vertex built for an index triple: with a position
    index the position is the three floats of [attrib.vertices] from
    [3*vertex_index] on; without one the position and the colour both stay
    (0,0,0), the colour is not white; with a texcoord index the uv is the two
    floats of [attrib.texcoords] from [2*texcoord_index] on, without one it
    stays (0,0). *)
Theorem loadVertex_fields attrib index w :
  model.loadVertex attrib index = Return w →
  (0 ≤ tinyobj.vertex_index index →
     three_at (tinyobj.vertices attrib) (3 * tinyobj.vertex_index index)
       (model.position w))
  ∧ (tinyobj.vertex_index index < 0 →
       model.position w = Vec3 f0 f0 f0 ∧ model.color w = Vec3 f0 f0 f0)
  ∧ (0 ≤ tinyobj.texcoord_index index →
       two_at (tinyobj.texcoords attrib) (2 * tinyobj.texcoord_index index)
         (model.uv w))
  ∧ (tinyobj.texcoord_index index < 0 → model.uv w = Vec2 f0 f0).
Proof.
  intros H. unfold model.loadVertex in H.
  bind_inv H as v1 H1. bind_inv H as v2 H2.
  apply set_position_color_spec in H1 as (_ & Hu1 & Hneg & Hpos).
  apply set_normal_spec in H2 as (Hp2 & Hc2 & Hu2 & _).
  assert (model.position w = model.position v1 ∧ model.color w = model.color v1)
    as [-> ->].
  { apply set_uv_spec in H as (-> & -> & _). by rewrite Hp2, Hc2. }
  split; [intros Hp; by destruct (Hpos Hp)|].
  split; [intros Hn; by rewrite (Hneg Hn)|].
  unfold model.set_uv in H.
  destruct (Z.leb_spec 0 (tinyobj.texcoord_index index)) as [Ht|Ht].
  - split; [intros _|lia].
    bind_inv H as tu Htu. bind_inv H as tv Htv. injection H as <-.
    apply read_Return in Htu as (_ & ? & Htu), Htv as (_ & ? & Htv).
    unfold two_at. simpl.
    replace (2 * tinyobj.texcoord_index index + 0)
      with (2 * tinyobj.texcoord_index index) in * by lia. done.
  - split; [lia|intros _]. injection H as <-. by rewrite Hu2, Hu1.
Qed.

Section LoadModelNaN.

Variable LoadObj : string → tinyobj.LoadObj_result.

(** X6. In a load that returns, a vertex that is not equal to itself (one
    of its floats is a NaN) is never deduplicated: each of its occurrences is
    appended at the end of the vertex sequence, and the index emitted for it
    is 0 whatever its place. *)
Theorem loadModel_nan_vertex filepath b b' k tk wk :
  model.loadModel LoadObj filepath b = (b', Return ()) →
  let attrib := tinyobj.attrib (LoadObj filepath) in
  let triples := all_indices (tinyobj.shapes (LoadObj filepath)) in
  triples !! k = Some tk → model.loadVertex attrib tk = Return wk →
  model.Vertex_eqb wk wk = false →
  ∃ m_k b_k,
    model.loadIndices attrib (take k triples) fresh_state = Return (m_k, b_k)
    ∧ model.vertices b' !! length (model.vertices b_k) = Some wk
    ∧ model.indices b' !! k = Some 0.
Proof.
  intros (_ & ws & m & Hws & Hfold)%loadModel_Return attrib triples Hk Hwk Hnan.
  apply loadVertices_Return in Hws. fold attrib triples in Hws.
  assert (ws !! k = Some wk) as Hwsk.
  { destruct (Forall2_lookup_l _ _ _ _ _ Hws Hk) as (w & Hw & Hw'). congruence. }
  destruct (foldl model.emitVertex fresh_state (take k ws)) as [m_k b_k] eqn:Hk_state.
  exists m_k, b_k. split.
  { rewrite loadIndices_fold,
      (Forall2_loadVertices _ _ _ (Forall2_take _ _ _ k Hws)).
    simpl. by rewrite Hk_state. }
  assert (model.umap_find m_k wk = None) as Hfind.
  { destruct (model.umap_find m_k wk) eqn:E; [|done].
    apply umap_find_Some_self in E. congruence. }
  pose proof (fold_grows (take (S k) ws) (drop (S k) ws)) as [Hv Hx].
  rewrite take_drop, Hfold in Hv, Hx. simpl in Hv, Hx.
  rewrite (take_S_r _ _ _ Hwsk), foldl_snoc, Hk_state, emitVertex_eq in Hv, Hx.
  cbv zeta in Hv, Hx. rewrite Hfind, Hnan in Hv, Hx. simpl in Hv, Hx.
  pose proof (fold_indices_length (take k ws)) as Hlen.
  rewrite Hk_state in Hlen. simpl in Hlen.
  rewrite length_take in Hlen. apply lookup_lt_Some in Hwsk as Hlt.
  split.
  - eapply prefix_lookup_Some; [|exact Hv]. by apply list_lookup_middle.
  - eapply prefix_lookup_Some; [|exact Hx].
    replace k with (length (model.indices b_k)) at 1 by lia.
    by apply list_lookup_middle.
Qed.

End LoadModelNaN.

Lemma loadModel_defined_witness :
  (∃ b', model.loadModel more_files "quad.obj" used_builder = (b', Return ()))
  ∧ (model.loadModel more_files "far.obj" used_builder).2 = Undefined.
Proof.
  split.
  - apply (loadModel_defined more_files "quad.obj" used_builder eq_refl).
    repeat constructor; simpl; unfold INT_MAX; intros; lia.
  - apply (loadModel_defined more_files "far.obj" used_builder eq_refl).
    intros [H _]%Forall_cons. destruct H as (_ & H & _).
    destruct H as [_ H]; [simpl; lia|]. revert H. simpl. unfold size. simpl. lia.
Defined.

Lemma loadModel_counts_witness :
  length (model.indices quad_builder) = 6%nat
  ∧ (length (model.vertices quad_builder) ≤ length (model.indices quad_builder))%nat.
Proof.
  exact (loadModel_counts example_files "quad.obj" empty_builder quad_builder eq_refl).
Defined.

Lemma loadModel_no_duplicates_witness :
  ∃ u v, model.vertices quad_builder !! 0%nat = Some u
         ∧ model.vertices quad_builder !! 2%nat = Some v
         ∧ model.Vertex_eqb u v = false.
Proof.
  eexists _, _. split; [reflexivity|]. split; [reflexivity|].
  eapply (loadModel_no_duplicates example_files "quad.obj" empty_builder
            quad_builder 0%nat 2%nat); [reflexivity|lia|reflexivity..].
Defined.

Lemma loadModel_vertices_from_triples_witness :
  ∃ u index, model.vertices quad_builder !! 3%nat = Some u
             ∧ index ∈ all_indices quad_shapes
             ∧ model.loadVertex quad_attrib index = Return u.
Proof.
  eexists _. 
  destruct (loadModel_vertices_from_triples example_files "quad.obj" empty_builder
              quad_builder _ eq_refl
              (list_elem_of_lookup_2 (model.vertices quad_builder) 3%nat _ eq_refl))
    as (index & Hin & Hload).
  exists index. split; [reflexivity|]. split; [exact Hin|exact Hload].
Defined.

Lemma loadVertex_fields_witness :
  ∃ w, model.loadVertex quad_attrib (triple (-1) (-1) (-1)) = Return w
       ∧ model.position w = Vec3 f0 f0 f0 ∧ model.color w = Vec3 f0 f0 f0.
Proof.
  eexists. split; [reflexivity|].
  apply (loadVertex_fields quad_attrib (triple (-1) (-1) (-1)) _ eq_refl).
  simpl. lia.
Defined.

Lemma loadModel_nan_vertex_witness :
  ∃ m_k b_k,
    model.loadIndices nan_attrib (take 1 (all_indices nan_shapes)) fresh_state
    = Return (m_k, b_k)
    ∧ model.vertices (model.loadModel example_files "nan.obj" empty_builder).1
      !! length (model.vertices b_k) = Some (default model.Vertex_default
           (model.vertices (model.loadModel example_files "nan.obj" empty_builder).1
            !! 1%nat))
    ∧ model.indices (model.loadModel example_files "nan.obj" empty_builder).1 !! 1%nat
      = Some 0.
Proof.
  exact (loadModel_nan_vertex example_files "nan.obj" empty_builder _ 1%nat
           (triple 1 (-1) (-1)) _ eq_refl eq_refl eq_refl eq_refl).
Defined.


(** ** More on the model *)

Lemma device_run_app s log log' :
  device_run s (log ++ log') = device_run s log ≫= λ s', device_run s' log'.
Proof.
  revert s. induction log as [|c log IH]; intros s; simpl; [done|].
  destruct (device_step s c); simpl; auto.
Qed.

(** An upload into a buffer that is not alive leaves just that buffer
    alive: the staging buffer is released again. *)
Lemma device_run_upload s bufferSize usage dst :
  dst ≠ model.stagingBuffer →
  held model.stagingBuffer (buffers s) = false →
  held model.stagingBuffer (memories s) = false →
  held dst (buffers s) = false → held dst (memories s) = false →
  device_run s (model.upload bufferSize usage dst)
  = Some {| buffers := dst :: buffers s; memories := dst :: memories s |}.
Proof.
  intros Hdst H1 H2 H3 H4. unfold model.upload. simpl.
  rewrite H1, H2. simpl.
  destruct dst; try done; simpl; rewrite ?H3, ?H4; simpl; done.
Qed.

Lemma construct_Return m0 b m :
  model.construct m0 b = Return m →
  let n := uint32 (size (model.vertices b)) in
  let k := uint32 (size (model.indices b)) in
  3 ≤ n
  ∧ model.vertexCount m = n ∧ model.indexCount m = k
  ∧ model.hasIndexBuffer m = (0 <? k)
  ∧ model.device_log m
    = model.device_log m0
      ++ model.upload (model.sizeof_Vertex * n) model.VERTEX_BUFFER model.vertexBuffer
      ++ (if 0 <? k
          then model.upload (model.sizeof_uint32 * k) model.INDEX_BUFFER model.indexBuffer
          else []).
Proof.
  unfold model.construct, model.createVertexBuffers, model.createIndexBuffer.
  cbv zeta. simpl.
  destruct (Z.leb_spec 3 (uint32 (size (model.vertices b)))) as [Hn|Hn];
    simpl; [|done].
  destruct (0 <? uint32 (size (model.indices b))) eqn:Hk; simpl;
    intros [= <-]; simpl; rewrite <- ?app_assoc, ?app_nil_r; done.
Qed.

(** X7. A model that has been constructed on a device with nothing alive
    holds its vertex buffer, its index buffer if it has one, and their
    memory, and nothing else: both staging buffers are gone. Destroying the
    model releases everything. No call uses, destroys or frees a buffer or a
    memory that is not alive, and no buffer is created into a handle still
    alive. *)
Theorem construct_destroy_resources m0 b m :
  model.device_log m0 = [] →
  model.construct m0 b = Return m →
  device_run no_resources (model.device_log m)
  = Some {| buffers := owned m; memories := owned m |}
  ∧ device_run no_resources (model.device_log m ++ model.destroy m)
    = Some no_resources.
Proof.
  intros Hlog (_ & _ & _ & Hflag & Hm)%construct_Return.
  rewrite Hlog, app_nil_l in Hm.
  assert (device_run no_resources (model.device_log m)
          = Some {| buffers := owned m; memories := owned m |}) as Hrun.
  { rewrite Hm, device_run_app, device_run_upload by done. simpl.
    unfold owned. rewrite Hflag.
    destruct (0 <? uint32 (size (model.indices b))); [|done].
    by rewrite device_run_upload. }
  split; [done|]. rewrite device_run_app, Hrun. simpl.
  unfold model.destroy, owned. by destruct (model.hasIndexBuffer m).
Qed.

Lemma construct_destroy_resources_witness :
  ∃ m, model.construct raw_model quad_builder = Return m
       ∧ device_run no_resources (model.device_log m ++ model.destroy m)
         = Some no_resources.
Proof.
  eexists. split; [reflexivity|].
  eapply (construct_destroy_resources raw_model quad_builder); reflexivity.
Defined.

(** X8. Both uploads copy no more bytes than their source vector holds:
    every [memcpy] that [createVertexBuffers] or [createIndexBuffer] adds is
    of at most [sizeof(Vertex)] (or [sizeof(uint32_t)]) times the length of
    the vector, and the byte count does not wrap in 64 bits. *)
Theorem upload_sizes vs ixs m bufferSize :
  (model.memcpy bufferSize ∈ model.device_log (model.createVertexBuffers vs m).1 →
     model.memcpy bufferSize ∈ model.device_log m
     ∨ 0 ≤ bufferSize ≤ model.sizeof_Vertex * size vs ∧ bufferSize < 2 ^ 64)
  ∧ (model.memcpy bufferSize ∈ model.device_log (model.createIndexBuffer ixs m).1 →
       model.memcpy bufferSize ∈ model.device_log m
       ∨ 0 ≤ bufferSize ≤ model.sizeof_uint32 * size ixs ∧ bufferSize < 2 ^ 64).
Proof.
  assert (∀ n usage dst, model.memcpy bufferSize ∈ model.upload n usage dst →
            bufferSize = n) as Hup.
  { intros n usage dst H. unfold model.upload in H.
    repeat (apply elem_of_cons in H as [H|H]; [by simplify_eq|]).
    by apply elem_of_nil in H. }
  split.
  - rewrite createVertexBuffers_log.
    pose proof (uint32_range (size vs)). pose proof (uint32_le _ (size_nonneg vs)).
    destruct (3 <=? uint32 (size vs)); [|by left].
    intros [?|Hb%Hup]%elem_of_app; [by left|right]. subst bufferSize.
    unfold model.sizeof_Vertex. lia.
  - unfold model.createIndexBuffer.
    pose proof (uint32_range (size ixs)). pose proof (uint32_le _ (size_nonneg ixs)).
    destruct (0 <? uint32 (size ixs)); simpl; [|by left].
    intros [?|Hb%Hup]%elem_of_app; [by left|right]. subst bufferSize.
    unfold model.sizeof_uint32. lia.
Qed.

Lemma upload_sizes_witness :
  0 ≤ 176 ≤ model.sizeof_Vertex * size (model.vertices quad_builder) ∧ 176 < 2 ^ 64.
Proof.
  destruct (proj1 (upload_sizes (model.vertices quad_builder) [] raw_model 176))
    as [H|H].
  - apply list_elem_of_lookup. exists 2%nat. reflexivity.
  - by apply elem_of_nil in H.
  - exact H.
Defined.

Section FromFileFacts.

Variable LoadObj : string → tinyobj.LoadObj_result.

(** X9. A model created from a file has at least 3 vertices, and with
    fewer than 2^32 index triples in the file it has an index buffer of one
    index per triple: [draw] issues one indexed draw of all of them. *)
Theorem createModelFromFile_indexed m0 filepath m :
  model.createModelFromFile LoadObj m0 filepath = Return m →
  let triples := all_indices (tinyobj.shapes (LoadObj filepath)) in
  3 ≤ model.vertexCount m
  ∧ model.indexCount m = uint32 (size triples)
  ∧ (size triples < 2 ^ 32 →
       3 ≤ size triples
       ∧ model.hasIndexBuffer m = true
       ∧ ∀ commandBuffer,
           model.draw m commandBuffer
           = commandBuffer ++ [model.vkCmdDrawIndexed (size triples) 1 0 0 0]).
Proof.
  unfold model.createModelFromFile.
  destruct (model.loadModel LoadObj filepath _) as [b' r] eqn:Hload.
  destruct r as [[]| | | |]; simpl; try done.
  intros (Hn & Hvc & Hic & Hflag & _)%construct_Return.
  cbv zeta in *.
  set (triples := all_indices (tinyobj.shapes (LoadObj filepath))).
  destruct (loadModel_lengths _ _ _ _ Hload) as [Hi Hv]. fold triples in Hi.
  assert (size (model.indices b') = size triples) as Hsz by (unfold size; lia).
  rewrite Hsz in *.
  split; [lia|]. split; [done|]. intros Hlt.
  pose proof (uint32_le _ (size_nonneg (model.vertices b'))).
  assert (3 ≤ size triples) as H3 by (unfold size in *; lia).
  rewrite uint32_small in Hic, Hflag by lia.
  split; [done|]. assert (model.hasIndexBuffer m = true) as Hb.
  { rewrite Hflag. apply Z.ltb_lt. lia. }
  split; [done|]. intros commandBuffer. unfold model.draw. by rewrite Hb, Hic.
Qed.

(** X10. [createModelFromFile] creates no model from a file that does not
    parse, it throws the parser's messages, nor from a file whose triples
    give fewer than 3 different vertices, the assertion of
    [createVertexBuffers] fails. *)
Theorem createModelFromFile_failures m0 filepath :
  (tinyobj.ok (LoadObj filepath) = false →
     model.createModelFromFile LoadObj m0 filepath
     = Throw (tinyobj.warn (LoadObj filepath) +:+ tinyobj.err (LoadObj filepath)))
  ∧ (∀ b b', model.loadModel LoadObj filepath b = (b', Return ()) →
       size (model.vertices b') < 3 →
       model.createModelFromFile LoadObj m0 filepath
       = Abort "Vertex count must be at least 3").
Proof.
  split.
  - intros Hok. unfold model.createModelFromFile, model.loadModel. by rewrite Hok.
  - intros b b' Hload Hlt. unfold model.createModelFromFile.
    apply loadModel_Return in Hload as (Hok & ws & m & Hws & Hfold).
    unfold model.loadModel. rewrite Hok. simpl.
    rewrite loadShapes_flat, loadIndices_fold, Hws. simpl.
    change ([], {| model.vertices := []; model.indices := [] |}) with fresh_state.
    rewrite Hfold. simpl. apply construct_outcome.
    rewrite uint32_small by (pose proof (size_nonneg (model.vertices b')); lia).
    by apply Z.leb_gt.
Qed.

End FromFileFacts.

Lemma createModelFromFile_indexed_witness :
  ∃ m, model.createModelFromFile example_files raw_model "quad.obj" = Return m
       ∧ model.draw m [] = [model.vkCmdDrawIndexed 6 1 0 0 0].
Proof.
  eexists. split; [reflexivity|].
  eapply (createModelFromFile_indexed example_files raw_model "quad.obj");
    reflexivity.
Defined.

Lemma createModelFromFile_failures_witness :
  model.createModelFromFile example_files raw_model "missing.obj"
  = Throw "Cannot open file"
  ∧ model.createModelFromFile example_files raw_model "lit.obj"
    = Abort "Vertex count must be at least 3".
Proof.
  split.
  - apply (createModelFromFile_failures example_files raw_model "missing.obj").
    reflexivity.
  - eapply (proj2 (createModelFromFile_failures example_files raw_model "lit.obj")
              empty_builder); reflexivity.
Defined.


(** ** More on the renderer *)



Section ReadyRenderer.

Variable MAX_FRAMES_IN_FLIGHT : Z.
Hypothesis MAX_positive : 0 < MAX_FRAMES_IN_FLIGHT ≤ INT_MAX.








Lemma resize_nil n : renderer.resize [] n = replicate n renderer.nullptr.
Proof. unfold renderer.resize. rewrite take_nil. simpl. by rewrite Nat.sub_0_r. Qed.

Lemma write_handles_all n h x :
  renderer.write_handles (Z.of_nat n) h (replicate n x) = h <$> seq 0 n.
Proof.
  unfold renderer.write_handles. apply list_eq. intros i.
  rewrite list_lookup_imap, list_lookup_fmap.
  destruct (decide (i < n)%nat) as [Hi|Hi].
  - rewrite lookup_replicate_2, lookup_seq_lt by done. simpl.
    by rewrite (proj2 (Z.ltb_lt _ _)) by lia.
  - rewrite (proj1 (lookup_replicate_None n x i)), lookup_seq_ge by lia. done.
Qed.

(** What a constructor that returns has done, member by member. *)
Lemma renderer_construct_members w a r0 r log pool_log :
  renderer.construct MAX_FRAMES_IN_FLIGHT w a r0 = (r, log, pool_log, Return ()) →
  (∃ pre v,
     renderer.swapchainInstance r = Some {| renderer.windowExtent := v |}
     ∧ log = poll_log (pre ++ [v])
             ++ [renderer.vkDeviceWaitIdle; renderer.make_swapchain v None]
     ∧ Forall (λ e, renderer.degenerate e = true) pre
     ∧ renderer.degenerate v = false)
  ∧ renderer.commandBuffers r
    = renderer.allocated a <$> seq 0 (Z.to_nat MAX_FRAMES_IN_FLIGHT)
  ∧ renderer.allocate_result a = renderer.VK_SUCCESS
  ∧ pool_log
    = [renderer.vkAllocateCommandBuffers MAX_FRAMES_IN_FLIGHT renderer.VK_SUCCESS]
  ∧ renderer.currentImageIndex r = renderer.currentImageIndex r0
  ∧ renderer.currentFrameIndex r = renderer.currentFrameIndex r0
  ∧ renderer.isFrameStarted r = renderer.isFrameStarted r0.
Proof.
  unfold renderer.construct.
  destruct (first_valid_extent (renderer.first_extent w :: renderer.later_extents w))
    as [Hall|(pre & v & post & Heq & Hpre & Hv)].
  { by rewrite (recreateSwapchain_blocked _ _ Hall). }
  rewrite (recreateSwapchain_valid _ _ _ _ _ Heq Hpre Hv).
  unfold replace_swapchain, renderer.createCommandBuffers. simpl.
  rewrite (proj2 (Z.ltb_ge _ _)) by lia. rewrite resize_nil.
  unfold size. rewrite length_replicate, Z2Nat.id by lia.
  rewrite uint32_small by (unfold INT_MAX in *; lia).
  destruct (Z.eqb_spec (renderer.allocate_result a) renderer.VK_SUCCESS) as [Ha|Ha];
    simpl; [|done].
  assert (renderer.write_handles MAX_FRAMES_IN_FLIGHT (renderer.allocated a)
            (replicate (Z.to_nat MAX_FRAMES_IN_FLIGHT) renderer.nullptr)
          = renderer.allocated a <$> seq 0 (Z.to_nat MAX_FRAMES_IN_FLIGHT)) as ->.
  { rewrite <- (Z2Nat.id MAX_FRAMES_IN_FLIGHT) at 1 by lia. apply write_handles_all. }
  intros [= <- <- <-]. simpl. rewrite Ha.
  split; [by exists pre, v|]. done.
Qed.


(** X11. What a constructor of the renderer that returns has done. The
    swapchain was constructed once, without a predecessor and so without a
    comparison of formats, for the first extent polled that was not
    degenerate, after polls and waits only; the command buffers are the
    [MAX_FRAMES_IN_FLIGHT] handles of one successful allocation. The
    constructor writes no other member: the image index, the frame slot and
    the frame flag are those of the storage it was given. *)
Theorem construct_members w a r0 r log pool_log :
  renderer.construct MAX_FRAMES_IN_FLIGHT w a r0 = (r, log, pool_log, Return ()) →
  (∃ pre v post,
     renderer.first_extent w :: renderer.later_extents w = pre ++ v :: post
     ∧ Forall (λ e, renderer.degenerate e = true) pre
     ∧ renderer.degenerate v = false
     ∧ renderer.swapchainInstance r = Some {| renderer.windowExtent := v |}
     ∧ log = poll_log (pre ++ [v])
             ++ [renderer.vkDeviceWaitIdle; renderer.make_swapchain v None])
  ∧ renderer.commandBuffers r
    = renderer.allocated a <$> seq 0 (Z.to_nat MAX_FRAMES_IN_FLIGHT)
  ∧ size (renderer.commandBuffers r) = MAX_FRAMES_IN_FLIGHT
  ∧ renderer.allocate_result a = renderer.VK_SUCCESS
  ∧ pool_log
    = [renderer.vkAllocateCommandBuffers MAX_FRAMES_IN_FLIGHT renderer.VK_SUCCESS]
  ∧ renderer.currentImageIndex r = renderer.currentImageIndex r0
  ∧ renderer.currentFrameIndex r = renderer.currentFrameIndex r0
  ∧ renderer.isFrameStarted r = renderer.isFrameStarted r0.
Proof.
  intros H.
  destruct (renderer_construct_members _ _ _ _ _ _ H)
    as (_ & Hcb & Ha & Hpool & Him & Hi & Hst).
  split; [|split; [done|split; [|done]]].
  - revert H. unfold renderer.construct.
    destruct (first_valid_extent
                (renderer.first_extent w :: renderer.later_extents w))
      as [Hall|(pre & v & post & Heq & Hpre & Hv)].
    { by rewrite (recreateSwapchain_blocked _ _ Hall). }
    rewrite (recreateSwapchain_valid _ _ _ _ _ Heq Hpre Hv).
    unfold replace_swapchain. simpl.
    destruct (renderer.createCommandBuffers _ _ _) as [[r1 pool1] out1] eqn:Hc.
    intros [= <- <- <- ->]. exists pre, v, post.
    split; [done|]. split; [done|]. split; [done|]. split; [|done].
    revert Hc. unfold renderer.createCommandBuffers.
    repeat case_match; intros; simplify_eq; done.
  - unfold size. rewrite Hcb, length_fmap, length_seq. lia.
Qed.

End ReadyRenderer.


Lemma construct_members_witness :
  0 < 2 ≤ INT_MAX
  ∧ renderer.commandBuffers
      (renderer.construct 2 minimised_window allocates raw_renderer).1.1.1
    = [101; 102]
  ∧ renderer.swapchainInstance
      (renderer.construct 2 minimised_window allocates raw_renderer).1.1.1
    = Some {| renderer.windowExtent := extent 800 600 |}.
Proof.
  assert (0 < 2 ≤ INT_MAX) as Hmax by (unfold INT_MAX; lia).
  split; [exact Hmax|].
  edestruct (construct_members 2 Hmax minimised_window allocates raw_renderer)
    as ((pre & v & post & Heq & Hpre & Hv & Hs & _) & Hcb & _); [reflexivity|].
  split; [exact Hcb|reflexivity].
Defined.

Section EndFrame.

Variable MAX_FRAMES_IN_FLIGHT : Z.
Hypothesis MAX_positive : 0 < MAX_FRAMES_IN_FLIGHT ≤ INT_MAX.

(** X13. [endFrame], case by case, for a frame slot in range. Outside a
    frame the assertion fails and nothing is called. When
    [vkEndCommandBuffer] fails the call throws and submits nothing. When the
    submission reports out-of-date or suboptimal the window is not asked;
    otherwise it is asked whether it was resized. When the submission
    reported one of the two or the window answers that it was resized,
    whatever the submission reported then, a failure too, the resize flag is
    reset and then the swapchain recreated, and the frame is closed and the
    slot advanced only if the recreation returns; a recreation that does not
    return ends the call as it ended, with the frame open and the frame slot
    as it was. Otherwise a submission that did not succeed throws, with the
    frame open and the slot as it was, and one that succeeded closes the
    frame and advances the slot. Every call that closes the frame then flows
    off the end of the function: it is undefined. *)
Theorem endFrame_cases o r :
  0 ≤ renderer.currentFrameIndex r < MAX_FRAMES_IN_FLIGHT →
  let result := renderer.submit_result o in
  (renderer.isFrameStarted r = false →
     renderer.endFrame MAX_FRAMES_IN_FLIGHT o r
     = (r, [], Abort "Can't call endFrame while frame is not in progress"))
  ∧ (renderer.isFrameStarted r = true →
     ∀ cb s,
       renderer.commandBuffers r !! Z.to_nat (renderer.currentFrameIndex r) = Some cb →
       renderer.swapchainInstance r = Some s →
       let ended := renderer.vkEndCommandBuffer cb (renderer.end_result o) in
       let submitted :=
         renderer.submitCommandBuffers cb (renderer.currentImageIndex r) result in
       (renderer.end_result o ≠ renderer.VK_SUCCESS →
          renderer.endFrame MAX_FRAMES_IN_FLIGHT o r
          = (r, [ended], Throw "failed to record command buffer!"))
       ∧ (renderer.end_result o = renderer.VK_SUCCESS →
          (∀ asked,
             (result = renderer.VK_ERROR_OUT_OF_DATE_KHR
              ∨ result = renderer.VK_SUBOPTIMAL_KHR) ∧ asked = []
             ∨ (result ≠ renderer.VK_ERROR_OUT_OF_DATE_KHR
                ∧ result ≠ renderer.VK_SUBOPTIMAL_KHR
                ∧ renderer.window_resized o = true
                ∧ asked = [renderer.wasWindowResized true]) →
             ∃ r1 log1 out1,
               renderer.recreateSwapchain (renderer.end_recreate o) r = (r1, log1, out1)
               ∧ renderer.endFrame MAX_FRAMES_IN_FLIGHT o r
                 = (if out1 is Return _ then next_slot MAX_FRAMES_IN_FLIGHT r1 else r1,
                    [ended; submitted] ++ asked
                    ++ [renderer.resetWindowResizedFlag] ++ log1,
                    out1 ≫= λ _, Undefined)
               ∧ (renderer.returned out1 = false →
                    renderer.isFrameStarted r1 = true
                    ∧ renderer.currentFrameIndex r1 = renderer.currentFrameIndex r))
          ∧ (result ≠ renderer.VK_ERROR_OUT_OF_DATE_KHR →
             result ≠ renderer.VK_SUBOPTIMAL_KHR →
             renderer.window_resized o = false →
             renderer.endFrame MAX_FRAMES_IN_FLIGHT o r
             = if result =? renderer.VK_SUCCESS
               then (next_slot MAX_FRAMES_IN_FLIGHT r,
                     [ended; submitted; renderer.wasWindowResized false], Undefined)
               else (r, [ended; submitted; renderer.wasWindowResized false],
                     Throw "failed to present swap chain image!")))).
Proof.
  intros Hidx result. split.
  - intros Hs. unfold renderer.endFrame. run_M. by rewrite Hs.
  - intros Hs cb s Hcb Hsc ended submitted. subst ended submitted.
    assert (vec_at (renderer.commandBuffers r) (renderer.currentFrameIndex r)
            = Return cb) as Hat.
    { unfold vec_at. by rewrite (proj2 (Z.ltb_ge _ _)), Hcb by lia. }
    split.
    + intros Hend. unfold renderer.endFrame, renderer.getCurrentCommandBuffer.
      run_M. rewrite Hs, Hat. simpl.
      by rewrite (proj2 (Z.eqb_neq _ _) Hend).
    + intros Hend. split.
      * intros asked Hcase.
        destruct (renderer.recreateSwapchain (renderer.end_recreate o) r)
          as [[r1 log1] out1] eqn:Hrec.
        exists r1, log1, out1. split; [done|].
        destruct (recreateSwapchain_frame _ _ _ _ _ Hrec) as (_ & _ & Hi & Hst & _).
        split; [|intros _; by rewrite Hst, Hi].
        unfold renderer.endFrame, renderer.getCurrentCommandBuffer.
        run_M. rewrite Hs, Hat. simpl. rewrite Hend, Hsc. simpl. fold result.
        assert (renderer.next_frame_index MAX_FRAMES_IN_FLIGHT
                  (renderer.currentFrameIndex r1)
                = Return ((renderer.currentFrameIndex r1 + 1)
                          mod MAX_FRAMES_IN_FLIGHT)) as Hnext.
        { apply next_frame_index_Return; [done|]. by rewrite Hi. }
        destruct Hcase as [[Hres ->]|(H1 & H2 & Hw & ->)].
        -- assert ((result =? renderer.VK_ERROR_OUT_OF_DATE_KHR)
                   || (result =? renderer.VK_SUBOPTIMAL_KHR) = true) as ->.
           { destruct Hres as [-> | ->]; done. }
           simpl. rewrite Hrec, Hnext.
           destruct out1 as [[]| | | |]; simpl; rewrite ?app_nil_r; done.
        -- rewrite (proj2 (Z.eqb_neq _ _) H1), (proj2 (Z.eqb_neq _ _) H2), Hw.
           simpl. rewrite Hrec, Hnext.
           destruct out1 as [[]| | | |]; simpl; rewrite ?app_nil_r; done.
      * intros H1 H2 Hw.
        unfold renderer.endFrame, renderer.getCurrentCommandBuffer.
        run_M. rewrite Hs, Hat. simpl. rewrite Hend, Hsc. simpl. fold result.
        rewrite (proj2 (Z.eqb_neq _ _) H1), (proj2 (Z.eqb_neq _ _) H2), Hw. simpl.
        destruct (result =? renderer.VK_SUCCESS); simpl; [|done].
        by rewrite next_frame_index_Return.
Qed.

End EndFrame.

Lemma endFrame_cases_witness :
  renderer.endFrame 2 (submits renderer.VK_SUCCESS false steady_window) idle_renderer
  = (idle_renderer, [], Abort "Can't call endFrame while frame is not in progress")
  ∧ renderer.endFrame 2 (submits VK_ERROR_DEVICE_LOST false steady_window) busy_renderer
    = (busy_renderer,
       [renderer.vkEndCommandBuffer 101 renderer.VK_SUCCESS;
        renderer.submitCommandBuffers 101 0 VK_ERROR_DEVICE_LOST;
        renderer.wasWindowResized false],
       Throw "failed to present swap chain image!")
  ∧ (renderer.endFrame 2 (submits VK_ERROR_DEVICE_LOST true steady_window)
       busy_renderer).2 = Undefined.
Proof.
  assert (0 < 2 ≤ INT_MAX) as Hmax by (unfold INT_MAX; lia).
  assert (0 ≤ renderer.currentFrameIndex busy_renderer < 2) as Hslot
    by (simpl; lia).
  split; [|split].
  - apply (endFrame_cases 2 Hmax
             (submits renderer.VK_SUCCESS false steady_window) idle_renderer).
    + simpl. lia.
    + reflexivity.
  - eapply (endFrame_cases 2 Hmax
              (submits VK_ERROR_DEVICE_LOST false steady_window) busy_renderer);
      try reflexivity; try done.
  - destruct (proj2 (endFrame_cases 2 Hmax
                       (submits VK_ERROR_DEVICE_LOST true steady_window)
                       busy_renderer Hslot)
                eq_refl 101 _ eq_refl eq_refl) as [_ Hsubmit].
    destruct (proj1 (Hsubmit eq_refl) [renderer.wasWindowResized true])
      as (r1 & log1 & out1 & Hrec & -> & _).
    + right. repeat split; done.
    + injection Hrec as <- <- <-. reflexivity.
Defined.

Section RenderPassFacts.

Variable getSwapchainExtent : renderer.swapchain → renderer.VkExtent2D.

Lemma beginFrame_Return o r r' log cb :
  renderer.beginFrame o r = (r', log, Return cb) →
  (renderer.acquire_result o = renderer.VK_ERROR_OUT_OF_DATE_KHR
   ∧ cb = renderer.nullptr ∧ renderer.isFrameStarted r' = false)
  ∨ (renderer.acquire_result o ≠ renderer.VK_ERROR_OUT_OF_DATE_KHR
     ∧ r' = renderer.set_isFrameStarted true
              (renderer.set_currentImageIndex (renderer.acquire_imageIndex o) r)
     ∧ vec_at (renderer.commandBuffers r) (renderer.currentFrameIndex r) = Return cb
     ∧ is_Some (renderer.swapchainInstance r)).
Proof.
  unfold renderer.beginFrame, renderer.getCurrentCommandBuffer. run_M.
  intros H. repeat case_match; simplify_eq; simpl in *.
  - left. split; [by apply Z.eqb_eq|]. split; [done|].
    match goal with
    | H : renderer.recreateSwapchain _ _ = _ |- _ =>
        apply recreateSwapchain_frame in H as (_ & _ & _ & -> & _)
    end.
    simpl.
    match goal with
    | H : negb (renderer.isFrameStarted ?x) = true |- _ =>
        by destruct (renderer.isFrameStarted x)
    end.
  - right. split; [by apply Z.eqb_neq|]. split; [done|]. split; [done|]. eauto.
Qed.

(** X14. What [beginFrame] returns decides the render pass. The buffer of
    a frame that was started is accepted by [beginSwapchainRenderPass] and
    [endSwapchainRenderPass]: the pass is begun on it for the framebuffer of
    the image just acquired, with render area, viewport and scissor of the
    whole swapchain extent, two clear values, and any other buffer is
    refused. The null handle returned after an out-of-date acquisition is
    refused by both: no frame is in progress. *)
Theorem renderPass_after_beginFrame o r r' log cb :
  renderer.beginFrame o r = (r', log, Return cb) →
  (renderer.acquire_result o = renderer.VK_ERROR_OUT_OF_DATE_KHR →
     cb = renderer.nullptr
     ∧ renderer.beginSwapchainRenderPass getSwapchainExtent cb r'
       = Abort "Can't call beginSwapchainRenderPass if frame is not in progress"
     ∧ renderer.endSwapchainRenderPass cb r'
       = Abort "Can't call endSwapchainRenderPass if frame is not in progress")
  ∧ (renderer.acquire_result o ≠ renderer.VK_ERROR_OUT_OF_DATE_KHR →
       ∃ s, renderer.swapchainInstance r' = Some s
         ∧ renderer.beginSwapchainRenderPass getSwapchainExtent cb r'
           = Return (render_pass_commands cb s (getSwapchainExtent s)
                       (renderer.acquire_imageIndex o))
         ∧ renderer.endSwapchainRenderPass cb r'
           = Return [renderer.vkCmdEndRenderPass cb]
         ∧ ∀ other, other ≠ cb →
             renderer.beginSwapchainRenderPass getSwapchainExtent other r'
             = Abort "Can't begin render pass on command buffer from a different frame"
             ∧ renderer.endSwapchainRenderPass other r'
               = Abort "Can't end render pass on command buffer from a different frame").
Proof.
  intros [(Hres & -> & Hst)|(Hres & -> & Hcb & [s Hs])]%beginFrame_Return.
  - split; [|done]. intros _. split; [done|].
    unfold renderer.beginSwapchainRenderPass, renderer.endSwapchainRenderPass.
    by rewrite Hst.
  - split; [done|]. intros _. exists s. split; [done|].
    unfold renderer.beginSwapchainRenderPass, renderer.endSwapchainRenderPass.
    simpl. rewrite Hcb, Hs. simpl. rewrite Z.eqb_refl. simpl.
    split; [done|]. split; [done|]. intros other Hother.
    by rewrite (proj2 (Z.eqb_neq _ _) Hother).
Qed.

End RenderPassFacts.

Lemma renderPass_after_beginFrame_witness :
  renderer.beginSwapchainRenderPass extent_of 101
    (renderer.beginFrame (acquires renderer.VK_SUCCESS steady_window) idle_renderer).1.1
  = Return (render_pass_commands 101 {| renderer.windowExtent := extent 800 600 |}
              (extent 800 600) 1)
  ∧ renderer.beginSwapchainRenderPass extent_of renderer.nullptr
      (renderer.beginFrame (acquires renderer.VK_ERROR_OUT_OF_DATE_KHR steady_window)
         idle_renderer).1.1
    = Abort "Can't call beginSwapchainRenderPass if frame is not in progress".
Proof.
  split.
  - edestruct (proj2 (renderPass_after_beginFrame extent_of
        (acquires renderer.VK_SUCCESS steady_window) idle_renderer _ _ 101 eq_refl))
      as (s & Hs & Hbegin & _); [done|].
    injection Hs as <-. exact Hbegin.
  - edestruct (proj1 (renderPass_after_beginFrame extent_of
        (acquires renderer.VK_ERROR_OUT_OF_DATE_KHR steady_window) idle_renderer
        _ _ renderer.nullptr eq_refl)) as (_ & Hbegin & _); [done|].
    exact Hbegin.
Defined.


(** ** Integers that [float] holds exactly *)

Lemma digits2_pos_bounds p :
  2 ^ (Zpos (digits2_pos p) - 1) ≤ Zpos p < 2 ^ Zpos (digits2_pos p).
Proof.
  induction p as [p IH|p IH|]; simpl digits2_pos.
  - rewrite Pos2Z.inj_succ. change (Zpos p~1) with (2 * Zpos p + 1).
    replace (Z.succ (Zpos (digits2_pos p)) - 1) with (Z.succ (Zpos (digits2_pos p) - 1))
      by lia.
    rewrite !Z.pow_succ_r by lia. lia.
  - rewrite Pos2Z.inj_succ. change (Zpos p~0) with (2 * Zpos p).
    replace (Z.succ (Zpos (digits2_pos p)) - 1) with (Z.succ (Zpos (digits2_pos p) - 1))
      by lia.
    rewrite !Z.pow_succ_r by lia. lia.
  - simpl. lia.
Qed.

Lemma iter_xO_value p k : Zpos (Pos.iter xO p k) = Zpos p * 2 ^ Zpos k.
Proof.
  induction k as [|k IH] using Pos.peano_ind.
  - simpl. lia.
  - rewrite Pos.iter_succ.
    change (Zpos (Pos.iter xO p k)~0) with (2 * Zpos (Pos.iter xO p k)).
    rewrite IH, Pos2Z.inj_succ, Z.pow_succ_r by lia. lia.
Qed.

Lemma iter_xO_digits p k :
  digits2_pos (Pos.iter xO p k) = (digits2_pos p + k)%positive.
Proof.
  induction k as [|k IH] using Pos.peano_ind.
  - simpl. lia.
  - rewrite Pos.iter_succ. simpl. rewrite IH. lia.
Qed.

(** A mantissa of exactly 24 digits at an exponent in range is a float as it
    stands: nothing is shifted out or rounded. *)
Lemma binary_round_aux_exact m e :
  digits2_pos m = 24%positive → -149 ≤ e ≤ 104 →
  binary_round_aux 24 128 false (Zpos m) e loc_Exact = S754_finite false m e.
Proof.
  intros Hd He. unfold binary_round_aux, shr_fexp, Zdigits2, fexp, emin.
  rewrite Hd. simpl shr_record_of_loc.
  replace (Z.max (24 + e - 24) (3 - 128 - 24) - e) with 0 by lia.
  simpl. rewrite Hd.
  replace (Z.max (24 + e - 24) (3 - 128 - 24) - e) with 0 by lia.
  simpl. by rewrite (proj2 (Z.leb_le _ _)) by lia.
Qed.

Lemma float_of_Z_exact p :
  Zpos p < 2 ^ 24 →
  ∃ m e, float_of_Z (Zpos p) = S754_finite false m e
         ∧ -23 ≤ e ≤ 0 ∧ Zpos m = Zpos p * 2 ^ (- e).
Proof.
  intros Hp. pose proof (digits2_pos_bounds p) as [Hlo Hhi].
  assert (Zpos (digits2_pos p) ≤ 24) as Hd.
  { destruct (Z.le_gt_cases (Zpos (digits2_pos p)) 24) as [|Hgt]; [done|].
    assert (2 ^ 24 ≤ 2 ^ (Zpos (digits2_pos p) - 1))
      by (apply Z.pow_le_mono_r; lia). lia. }
  unfold float_of_Z, binary_normalize, binary_round, shl_align, fexp, emin.
  replace (Z.max (Zpos (digits2_pos p) + 0 - 24) (3 - 128 - 24) - 0)
    with (Zpos (digits2_pos p) - 24) by lia.
  replace (Z.max (Zpos (digits2_pos p) + 0 - 24) (3 - 128 - 24))
    with (Zpos (digits2_pos p) - 24) by lia.
  destruct (Zpos (digits2_pos p) - 24) as [|k|k] eqn:Hk; [|lia|].
  - exists p, 0. rewrite binary_round_aux_exact by lia. split; [done|]. simpl. lia.
  - exists (Pos.iter xO p k), (Zneg k).
    rewrite binary_round_aux_exact.
    + split; [done|]. split; [lia|]. apply iter_xO_value.
    + rewrite iter_xO_digits. lia.
    + lia.
Qed.

(** A count of at most 2^24 survives the way through [float]. *)
Lemma uint32_of_float_of_Z n :
  0 ≤ n ≤ 2 ^ 24 → uint32_of_float (float_of_Z n) = Return n.
Proof.
  intros [Hn Hmax]. destruct (Z.eq_dec n (2 ^ 24)) as [->|Hne]; [reflexivity|].
  destruct n as [|p|p]; [reflexivity| |lia].
  destruct (float_of_Z_exact p) as (m & e & -> & He & Hm); [lia|].
  unfold uint32_of_float.
  assert (match e with
          | 0 => Zpos m
          | Zpos q => Zpos m * 2 ^ Zpos q
          | Zneg q => Zpos m / 2 ^ Zpos q
          end = Zpos p) as ->.
  { destruct e as [|q|q]; [simpl in Hm; lia|lia|].
    rewrite Hm. change (- Zneg q) with (Zpos q). apply Z.div_mul.
    apply Z.pow_nonzero; lia. }
  by rewrite (proj2 (andb_true_iff _ _)) by (split; [apply Z.leb_le|apply Z.ltb_lt]; lia).
Qed.


(** ** The command pool *)

Lemma freeCommandBuffers_count_aux r :
  (size (renderer.commandBuffers r) ≤ 2 ^ 24 →
     renderer.freeCommandBuffers r
     = (renderer.set_commandBuffers [] r,
        [renderer.vkFreeCommandBuffers (size (renderer.commandBuffers r))],
        Return ()))
  ∧ (size (renderer.commandBuffers r) = 2 ^ 24 + 1 →
       renderer.freeCommandBuffers r
       = (renderer.set_commandBuffers [] r,
          [renderer.vkFreeCommandBuffers (2 ^ 24)], Return ())).
Proof.
  unfold renderer.freeCommandBuffers. split.
  - intros Hle. rewrite uint32_of_float_of_Z; [done|].
    split; [apply size_nonneg|done].
  - intros ->. reflexivity.
Qed.

(** X15. [freeCommandBuffers] passes its count through [float]: for at most
    2^24 command buffers it frees exactly as many as the vector holds and
    empties the vector; with 2^24 + 1 command buffers the count it passes is
    one short. *)
Theorem freeCommandBuffers_count r :
  (size (renderer.commandBuffers r) ≤ 2 ^ 24 →
     renderer.freeCommandBuffers r
     = (renderer.set_commandBuffers [] r,
        [renderer.vkFreeCommandBuffers (size (renderer.commandBuffers r))],
        Return ()))
  ∧ (size (renderer.commandBuffers r) = 2 ^ 24 + 1 →
       renderer.freeCommandBuffers r
       = (renderer.set_commandBuffers [] r,
          [renderer.vkFreeCommandBuffers (2 ^ 24)], Return ())).
Proof. exact (freeCommandBuffers_count_aux r). Qed.

Lemma freeCommandBuffers_count_witness :
  renderer.freeCommandBuffers idle_renderer
  = (renderer.set_commandBuffers [] idle_renderer,
     [renderer.vkFreeCommandBuffers 2], Return ()).
Proof.
  apply (freeCommandBuffers_count idle_renderer).
  assert (size (renderer.commandBuffers idle_renderer) = 2) as -> by reflexivity.
  lia.
Defined.



(** ** The point light system *)

Section PointLight.

Context {Description Rest : Type}.
Variable defaultPipelineConfigInfo :
  @pointlightsystem.PipelineConfigInfo Description Rest →
  @pointlightsystem.PipelineConfigInfo Description Rest.
Variable empty_config : @pointlightsystem.PipelineConfigInfo Description Rest.

(** X17. The constructor of the point light system: when
    [vkCreatePipelineLayout] fails it throws and creates no pipeline; when
    the layout handle is null the assertion fails; otherwise the pipeline is
    created from the two point light shaders with a configuration that has no
    vertex attribute and no vertex binding, whatever the default
    configuration holds, and a system so constructed renders without
    undefined behaviour: it binds that pipeline, binds the one descriptor set
    of the frame at set 0 and draws 6 vertices, all into the command buffer
    of the frame. *)
Theorem pointlightsystem_construct o pass globalSetLayout s0 :
  let result :=
    pointlightsystem.construct defaultPipelineConfigInfo empty_config
      o pass globalSetLayout s0 in
  (pointlightsystem.create_result o ≠ renderer.VK_SUCCESS →
     result.2 = Throw "failed to create pipeline layout!"
     ∧ (∀ p, pointlightsystem.make_pipeline p ∉ result.1.2)
     ∧ pointlightsystem.pipelineInstance result.1.1
       = pointlightsystem.pipelineInstance s0)
  ∧ (pointlightsystem.create_result o = renderer.VK_SUCCESS →
     pointlightsystem.created_layout o = 0 →
     result.2 = Abort "Cannot create pipeline before pipeline layout")
  ∧ (∀ s log, result = (s, log, Return ()) →
       ∃ p, pointlightsystem.pipelineInstance s = Some p
         ∧ pointlightsystem.layout s = pointlightsystem.created_layout o
         ∧ pointlightsystem.vertFilepath p = "point_light.vert.spv"
         ∧ pointlightsystem.fragFilepath p = "point_light.frag.spv"
         ∧ pointlightsystem.attributeDescriptions (pointlightsystem.configInfo p) = []
         ∧ pointlightsystem.bindingDescriptions (pointlightsystem.configInfo p) = []
         ∧ pointlightsystem.renderPass (pointlightsystem.configInfo p) = pass
         ∧ pointlightsystem.pipelineLayout (pointlightsystem.configInfo p)
           = pointlightsystem.created_layout o
         ∧ log = [pointlightsystem.vkCreatePipelineLayout [globalSetLayout] 0
                    renderer.VK_SUCCESS;
                  pointlightsystem.make_pipeline p]
         ∧ ∀ frameInfo,
             pointlightsystem.render frameInfo s
             = Return
                 [ pointlightsystem.pipeline_bind
                     (pointlightsystem.commandBuffer frameInfo) p;
                   pointlightsystem.vkCmdBindDescriptorSets
                     (pointlightsystem.commandBuffer frameInfo)
                     (pointlightsystem.created_layout o) 0 1
                     [pointlightsystem.globalDescriptorSet frameInfo] 0;
                   pointlightsystem.vkCmdDraw
                     (pointlightsystem.commandBuffer frameInfo) 6 1 0 0 ]).
Proof.
  cbv zeta.
  unfold pointlightsystem.construct, pointlightsystem.createPipelineLayout,
    pointlightsystem.createPipeline.
  split; [|split].
  - intros Hres. rewrite (proj2 (Z.eqb_neq _ _) Hres). simpl.
    split; [done|]. split; [|done].
    intros p [?|?%elem_of_nil]%elem_of_cons; done.
  - intros -> ->. done.
  - intros s log.
    destruct (Z.eqb_spec (pointlightsystem.create_result o) renderer.VK_SUCCESS)
      as [Hres|Hres]; simpl; [|done].
    destruct (Z.eqb_spec (pointlightsystem.created_layout o) 0); simpl; [done|].
    destruct (pointlightsystem.pipeline_error o); simpl; [done|].
    intros [= <- <-]. eexists. split; [reflexivity|]. simpl. rewrite Hres.
    repeat split; done.
Qed.

End PointLight.

Lemma pointlightsystem_construct_witness :
  (pointlightsystem.construct (λ _, some_config) some_config layout_refused 3 5
     raw_pointlightsystem).2
  = Throw "failed to create pipeline layout!"
  ∧ ∃ p, pointlightsystem.pipelineInstance
           (pointlightsystem.construct (λ _, some_config) some_config layout_created
              3 5 raw_pointlightsystem).1.1 = Some p
         ∧ pointlightsystem.attributeDescriptions (pointlightsystem.configInfo p) = [].
Proof.
  split.
  - apply (pointlightsystem_construct (λ _, some_config) some_config layout_refused 3 5
             raw_pointlightsystem). done.
  - edestruct (proj2 (proj2 (pointlightsystem_construct (λ _, some_config) some_config
        layout_created 3 5 raw_pointlightsystem)))
      as (p & Hp & _ & _ & _ & Ha & _); [reflexivity|].
    exists p. split; [exact Hp|exact Ha].
Defined.


(** ** Binding, and failures of the renderer's constructor *)

(** X18. [bind] on a constructed model binds the vertex buffer at binding
    0 with offset 0 and, exactly when the model has an index buffer, the
    index buffer with offset 0; every buffer it binds is one the model holds
    alive on the device, and the draw that follows is indexed exactly when an
    index buffer was bound. *)
Theorem bind_constructed m0 b m commandBuffer :
  model.device_log m0 = [] →
  model.construct m0 b = Return m →
  ∃ res,
    device_run no_resources (model.device_log m) = Some res
    ∧ held model.vertexBuffer (buffers res) = true
    ∧ (model.hasIndexBuffer m = true →
         held model.indexBuffer (buffers res) = true
         ∧ model.draw m (model.bind m commandBuffer)
           = commandBuffer
             ++ [model.vkCmdBindVertexBuffers 0 1 [model.vertexBuffer] [0];
                 model.vkCmdBindIndexBuffer model.indexBuffer 0;
                 model.vkCmdDrawIndexed (model.indexCount m) 1 0 0 0])
    ∧ (model.hasIndexBuffer m = false →
         model.draw m (model.bind m commandBuffer)
         = commandBuffer
           ++ [model.vkCmdBindVertexBuffers 0 1 [model.vertexBuffer] [0];
               model.vkCmdDraw (model.vertexCount m) 1 0 0]).
Proof.
  intros Hlog (_ & _ & _ & Hflag & Hm)%construct_Return.
  rewrite Hlog, app_nil_l in Hm.
  exists {| buffers := owned m; memories := owned m |}. split.
  { rewrite Hm, device_run_app, device_run_upload by done. simpl.
    unfold owned. rewrite Hflag.
    destruct (0 <? uint32 (size (model.indices b))); [|done].
    by rewrite device_run_upload. }
  unfold owned, model.draw, model.bind. simpl.
  split; [by destruct (model.hasIndexBuffer m)|].
  split; intros ->; simpl; rewrite <- ?app_assoc; done.
Qed.

Lemma bind_constructed_witness :
  ∃ m, model.construct raw_model quad_builder = Return m
       ∧ model.draw m (model.bind m [])
         = [model.vkCmdBindVertexBuffers 0 1 [model.vertexBuffer] [0];
            model.vkCmdBindIndexBuffer model.indexBuffer 0;
            model.vkCmdDrawIndexed 6 1 0 0 0].
Proof.
  eexists. split; [reflexivity|].
  edestruct (bind_constructed raw_model quad_builder _ [] eq_refl eq_refl)
    as (res & _ & _ & Hidx & _).
  destruct Hidx as [_ Hdraw]; [reflexivity|]. exact Hdraw.
Defined.

(** X19. A recreation that finds the formats changed throws only after the
    swap: the renderer already holds the new swapchain, constructed with the
    old one as predecessor, in place of the old one. Without an old swapchain
    no formats are compared and the recreation cannot throw. *)
Theorem recreateSwapchain_format_change o r pre v post :
  renderer.first_extent o :: renderer.later_extents o = pre ++ v :: post →
  Forall (λ e, renderer.degenerate e = true) pre →
  renderer.degenerate v = false →
  (∀ old, renderer.swapchainInstance r = Some old →
          renderer.same_formats o = false →
          renderer.recreateSwapchain o r
          = (renderer.set_swapchainInstance (Some {| renderer.windowExtent := v |}) r,
             poll_log (pre ++ [v])
             ++ [renderer.vkDeviceWaitIdle; renderer.make_swapchain v (Some old);
                 renderer.compareSwapFormats false],
             Throw "swap chain image or depth format has changed!"))
  ∧ (renderer.swapchainInstance r = None →
       renderer.recreateSwapchain o r
       = (renderer.set_swapchainInstance (Some {| renderer.windowExtent := v |}) r,
          poll_log (pre ++ [v])
          ++ [renderer.vkDeviceWaitIdle; renderer.make_swapchain v None],
          Return ())).
Proof.
  intros Heq Hpre Hv. rewrite (recreateSwapchain_valid _ r _ _ _ Heq Hpre Hv).
  unfold replace_swapchain. split.
  - intros old -> ->. done.
  - intros ->. done.
Qed.

Lemma recreateSwapchain_format_change_witness :
  (renderer.recreateSwapchain reformatted_window idle_renderer).2
  = Throw "swap chain image or depth format has changed!"
  ∧ renderer.swapchainInstance
      (renderer.recreateSwapchain reformatted_window idle_renderer).1.1
    = Some {| renderer.windowExtent := extent 1024 768 |}.
Proof.
  rewrite (proj1 (recreateSwapchain_format_change reformatted_window idle_renderer
                    [] (extent 1024 768) [] eq_refl (Forall_nil_2 _) eq_refl)
             _ eq_refl eq_refl).
  split; reflexivity.
Defined.

Section ConstructFailures.

Variable MAX_FRAMES_IN_FLIGHT : Z.
Hypothesis MAX_positive : 0 < MAX_FRAMES_IN_FLIGHT ≤ INT_MAX.

(** X20. The constructor of the renderer does not return on a window that
    stays minimised, and then asks for no command buffer; when the
    allocation of the command buffers fails it throws, with the swapchain
    already constructed. *)
Theorem construct_failures w a r0 :
  (Forall (λ e, renderer.degenerate e = true)
     (renderer.first_extent w :: renderer.later_extents w) →
   ∃ r log, renderer.construct MAX_FRAMES_IN_FLIGHT w a r0 = (r, log, [], Blocked)
            ∧ renderer.swapchainInstance r = None)
  ∧ (∀ pre v post,
       renderer.first_extent w :: renderer.later_extents w = pre ++ v :: post →
       Forall (λ e, renderer.degenerate e = true) pre →
       renderer.degenerate v = false →
       renderer.allocate_result a ≠ renderer.VK_SUCCESS →
       ∃ r log,
         renderer.construct MAX_FRAMES_IN_FLIGHT w a r0
         = (r, log,
            [renderer.vkAllocateCommandBuffers MAX_FRAMES_IN_FLIGHT
               (renderer.allocate_result a)],
            Throw "failed to allocate command buffers!")
         ∧ renderer.swapchainInstance r = Some {| renderer.windowExtent := v |}).
Proof.
  unfold renderer.construct. split.
  - intros Hall. rewrite (recreateSwapchain_blocked _ _ Hall). eauto.
  - intros pre v post Heq Hpre Hv Ha.
    rewrite (recreateSwapchain_valid _ _ _ _ _ Heq Hpre Hv).
    unfold replace_swapchain, renderer.createCommandBuffers. simpl.
    rewrite (proj2 (Z.ltb_ge _ _)) by lia. rewrite resize_nil.
    unfold size. rewrite length_replicate, Z2Nat.id by lia.
    rewrite uint32_small by (unfold INT_MAX in *; lia).
    rewrite (proj2 (Z.eqb_neq _ _) Ha). simpl. eauto.
Qed.

End ConstructFailures.

Lemma construct_failures_witness :
  (renderer.construct 2 hidden_window allocates raw_renderer).2 = Blocked
  ∧ (renderer.construct 2 hidden_window allocates raw_renderer).1.2 = [].
Proof.
  assert (0 < 2 ≤ INT_MAX) as Hmax by (unfold INT_MAX; lia).
  edestruct (proj1 (construct_failures 2 Hmax hidden_window allocates raw_renderer))
    as (r & log & -> & _).
  - repeat constructor.
  - split; reflexivity.
Defined.
